(** * Stoichiometry from a dimer: a shallow embedding of
      [Script_stoichiometry_from_dimer.py] and the properties of its
      numeric core.

    The script computes, for a chain of superimposed copies of a dimer,
    the RMSD between the first protomer and every later one ([rmsd],
    [rmsd_list_from_dimer]), finds the first strict local minimum of that
    curve ([min_rmsd]) and reports its index minus one
    ([predict_stoichiometry]).

    Modelling choices.
    - [rmsd] is embedded twice.  [Machine.rmsd] takes the arithmetic of
      the coordinate values (subtraction, [pow(., 2)], addition, division
      by an integer, [math.sqrt], multiplication by 10.0) as a parameter
      and assumes of it only that squares, sums of non-negative values
      and their quotients by a positive integer are not below zero; what
      is proved of it holds of machine floats, rounding included.  [rmsd]
      is the same function with exact real arithmetic ([R]); it is used
      for the properties that do not depend on rounding (exceptions,
      lengths, a chain against itself, symmetry).  [min_rmsd] only
      compares its elements, so it is written over any type with a
      comparison and used at [R] and at [Z] (Python integers).
    - Python strings are held as their UTF-8 bytes.
    - Python integers are [Z]; list subscripts follow Python: a negative
      subscript counts from the end, anything out of range raises
      [IndexError].
    - Exceptions are values of [exn]; a computation that can raise returns
      [res A].
    - The alignment engine (PyMOL's [cmd]) and the structure loader
      (mdtraj's [md.load]) are outside the script.  They are parameters of
      the embedding: an abstract world on which every command and the
      loader act, each either returning or raising. *)

From Stdlib Require Import List ZArith Reals Lra Lia Bool String Ascii.
From Stdlib Require Import DecimalString DecimalPos DecimalZ.
Import ListNotations.

Set Implicit Arguments.

(** ** Exceptions and results *)

Inductive exn : Type :=
| IndexError
| ZeroDivisionError
| ValueError
| TypeError
| EngineError (msg : string).

Inductive res (A : Type) : Type :=
| Ok (a : A)
| Raise (e : exn).

Arguments Ok {A} a.
Arguments Raise {A} e.

Module Res.
Definition bind {A B : Type} (m : res A) (k : A -> res B) : res B :=
  match m with
  | Ok a => k a
  | Raise e => Raise e
  end.
End Res.

Declare Scope res_scope.
Delimit Scope res_scope with res.
Notation "x <- m ;; k" := (Res.bind m (fun x => k))
  (at level 100, m at next level, right associativity) : res_scope.

(** ** Python lists, subscripts and ranges *)

(** [len(l)] as a Python integer. *)
Definition len {A : Type} (l : list A) : Z := Z.of_nat (List.length l).

(** [l[k]]: negative subscripts count from the end of the list. *)
Definition getitem {A : Type} (l : list A) (k : Z) : res A :=
  let k' := (if k <? 0 then k + len l else k)%Z in
  if (k' <? 0)%Z then Raise IndexError
  else match nth_error l (Z.to_nat k') with
       | Some a => Ok a
       | None => Raise IndexError
       end.

(** [range(lo, hi)]: the integers [lo], [lo+1], ..., [hi-1]. *)
Definition range (lo hi : Z) : list Z :=
  map (fun k => (lo + Z.of_nat k)%Z) (seq 0 (Z.to_nat (hi - lo))).

(** [str(n)] for an integer. *)
Definition str (n : Z) : string := NilZero.string_of_int (Z.to_int n).

(** A Python string is held as its UTF-8 bytes.  A byte [10xxxxxx]
    continues the character begun before it. *)
Definition is_continuation (c : ascii) : bool :=
  match c with
  | Ascii _ _ _ _ _ _ b6 b7 => b7 && negb b6
  end.

(** Removes the last character of a string given by its bytes in reverse
    order: its continuation bytes, then its first byte. *)
Fixpoint drop_char_rev (bytes : list ascii) : list ascii :=
  match bytes with
  | [] => []
  | c :: rest => if is_continuation c then drop_char_rev rest else rest
  end.

(** [s[:-k]] for a string: all but the last [k] characters (the empty
    string when there are [k] characters or fewer). *)
Definition drop_last (s : string) (k : nat) : string :=
  string_of_list_ascii
    (rev (Nat.iter k drop_char_rev (rev (list_ascii_of_string s)))).

(** ** Comparison of list elements *)

Class PyLt (A : Type) : Type := py_lt : A -> A -> bool.

#[global] Instance PyLt_Z : PyLt Z := Z.ltb.

#[global] Instance PyLt_R : PyLt R :=
  fun x y => if Rlt_dec x y then true else false.

(** ** [min_rmsd] *)

Section MinRmsd.
Context {A : Type} `{PyLt A}.

(** The body of the [for] loop, over the indices still to visit.  The
    [and] of the source evaluates its right operand only when the left
    one holds; falling off the end of the loop returns Python's [None]. *)
Fixpoint min_rmsd_loop (rmsd_list : list A) (idxs : list Z)
  : res (option Z) :=
  match idxs with
  | [] => Ok None
  | i :: rest =>
      (x <- getitem rmsd_list i ;;
       p <- getitem rmsd_list (i - 1) ;;
       if py_lt x p then
         (x' <- getitem rmsd_list i ;;
          n <- getitem rmsd_list (i + 1) ;;
          if py_lt x' n then Ok (Some i)
          else min_rmsd_loop rmsd_list rest)
       else min_rmsd_loop rmsd_list rest)%res
  end.

Definition min_rmsd (rmsd_list : list A) : res (option Z) :=
  min_rmsd_loop rmsd_list (range 2 (len rmsd_list - 1)).

(** [rmsd_list[i] < rmsd_list[i-1] and rmsd_list[i] < rmsd_list[i+1]]
    at an index [i] that has both neighbours. *)
Definition strict_local_min (rmsd_list : list A) (i : Z) : bool :=
  (1 <=? i)%Z &&
  match nth_error rmsd_list (Z.to_nat (i - 1)),
        nth_error rmsd_list (Z.to_nat i),
        nth_error rmsd_list (Z.to_nat (i + 1)) with
  | Some p, Some x, Some n => py_lt x p && py_lt x n
  | _, _, _ => false
  end.
End MinRmsd.

(** ** Structures *)

(** One row of the coordinate array: the array has shape
    (frames, atoms, 3). *)
Record point : Type := { px : R; py : R; pz : R }.

Record chain : Type := { chain_index : Z }.
Record residue : Type := { residue_chain : chain }.
Record atom : Type := { atom_index : Z; atom_residue : residue }.
Record topology : Type := { atoms : list atom }.

Record structure : Type := {
  xyz : list (list point);
  struct_topology : topology
}.

(** ** [rmsd] *)

(** [structure.xyz[0][chain[i]]]: the row of frame 0 picked by [chain[i]],
    subscripts evaluated left to right. *)
Definition atom_point (s : structure) (chain : list Z) (i : Z) : res point :=
  (frame <- getitem (xyz s) 0 ;;
   a <- getitem chain i ;;
   getitem frame a)%res.

(** [structure.xyz[0][chain[i]][axis]] *)
Definition atom_coord (s : structure) (chain : list Z) (i : Z)
    (axis : point -> R) : res R :=
  (p <- atom_point s chain i ;; Ok (axis p))%res.

(** The three [summ += pow(.. - .., 2)] statements, for every index still
    to visit. *)
Fixpoint rmsd_loop (s : structure) (chain_1 chain_2 : list Z)
    (idxs : list Z) (summ : R) : res R :=
  match idxs with
  | [] => Ok summ
  | i :: rest =>
      (x1 <- atom_coord s chain_1 i px ;;
       x2 <- atom_coord s chain_2 i px ;;
       let summ := (summ + pow (x1 - x2) 2)%R in
       y1 <- atom_coord s chain_1 i py ;;
       y2 <- atom_coord s chain_2 i py ;;
       let summ := (summ + pow (y1 - y2) 2)%R in
       z1 <- atom_coord s chain_1 i pz ;;
       z2 <- atom_coord s chain_2 i pz ;;
       let summ := (summ + pow (z1 - z2) 2)%R in
       rmsd_loop s chain_1 chain_2 rest summ)%res
  end.

(** [summ/N] for an integer [N]. *)
Definition py_div (summ : R) (N : Z) : res R :=
  if (N =? 0)%Z then Raise ZeroDivisionError else Ok (summ / IZR N)%R.

(** [math.sqrt] raises [ValueError] below zero. *)
Definition math_sqrt (x : R) : res R :=
  if Rlt_dec x 0 then Raise ValueError else Ok (sqrt x).

Definition rmsd (chain_1 chain_2 : list Z) (s : structure) : res R :=
  let N := len chain_1 in
  (summ <- rmsd_loop s chain_1 chain_2 (range 0 N) 0%R ;;
   q <- py_div summ N ;;
   r <- math_sqrt q ;;
   Ok (r * 10)%R)%res.

(** The value the contract of [rmsd] describes: the squared distance
    between two rows, summed over paired atoms, averaged, rooted and
    converted from nanometres. *)
Definition sq_dist (p q : point) : R :=
  ((px p - px q) ^ 2 + (py p - py q) ^ 2 + (pz p - pz q) ^ 2)%R.

Definition origin : point := {| px := 0; py := 0; pz := 0 |}.

Definition sum_sq_dist (frame : list point) (chain_1 chain_2 : list Z) : R :=
  fold_right Rplus 0%R
    (map (fun ab => sq_dist (nth (Z.to_nat (fst ab)) frame origin)
                            (nth (Z.to_nat (snd ab)) frame origin))
         (combine chain_1 chain_2)).

Definition rmsd_spec (frame : list point) (chain_1 chain_2 : list Z) : R :=
  (sqrt (sum_sq_dist frame chain_1 chain_2 / INR (List.length chain_1)) * 10)%R.

(** [chain] holds subscripts that are in range for [frame]. *)
Definition valid_chain (frame : list point) (chain : list Z) : Prop :=
  Forall (fun a => (0 <= a < len frame)%Z) chain.

(** ** [rmsd] in machine arithmetic *)

Module Machine.

(** The operations [rmsd] applies to coordinate values, on a type [F] of
    Python numbers: the integer 0 [summ] starts from, [a - b],
    [pow(a, 2)], [a + b], [a / N] for a non-zero integer [N], the test
    [a < 0] that makes [math.sqrt] raise, [math.sqrt(a)] and [a * 10.0]. *)
Class Arith (F : Type) : Type := {
  f_zero : F;
  f_sub : F -> F -> F;
  f_pow2 : F -> F;
  f_add : F -> F -> F;
  f_div : F -> Z -> F;
  f_lt0 : F -> bool;
  f_sqrt : F -> F;
  f_mul10 : F -> F
}.

(** What is assumed of the arithmetic: no square is below zero, no sum of
    two values that are not below zero is, and no quotient of such a
    value by a positive integer is.  Rounded floating-point operations
    satisfy this, also on infinities and NaN. *)
Class ArithLaws (F : Type) `{Arith F} : Prop := {
  lt0_zero : f_lt0 f_zero = false;
  lt0_pow2 : forall a, f_lt0 (f_pow2 a) = false;
  lt0_add : forall a b,
      f_lt0 a = false -> f_lt0 b = false -> f_lt0 (f_add a b) = false;
  lt0_div : forall a N,
      f_lt0 a = false -> (0 < N)%Z -> f_lt0 (f_div a N) = false
}.

Record point (F : Type) : Type := { px : F; py : F; pz : F }.

Record structure (F : Type) : Type := {
  xyz : list (list (point F));
  struct_topology : topology
}.

Section Rmsd.
Context {F : Type} `{Arith F}.

(** [structure.xyz[0][chain[i]]] *)
Definition atom_point (s : structure F) (chain : list Z) (i : Z)
  : res (point F) :=
  (frame <- getitem (xyz s) 0 ;;
   a <- getitem chain i ;;
   getitem frame a)%res.

(** [structure.xyz[0][chain[i]][axis]] *)
Definition atom_coord (s : structure F) (chain : list Z) (i : Z)
    (axis : point F -> F) : res F :=
  (p <- atom_point s chain i ;; Ok (axis p))%res.

Fixpoint rmsd_loop (s : structure F) (chain_1 chain_2 : list Z)
    (idxs : list Z) (summ : F) : res F :=
  match idxs with
  | [] => Ok summ
  | i :: rest =>
      (x1 <- atom_coord s chain_1 i (@px F) ;;
       x2 <- atom_coord s chain_2 i (@px F) ;;
       let summ := f_add summ (f_pow2 (f_sub x1 x2)) in
       y1 <- atom_coord s chain_1 i (@py F) ;;
       y2 <- atom_coord s chain_2 i (@py F) ;;
       let summ := f_add summ (f_pow2 (f_sub y1 y2)) in
       z1 <- atom_coord s chain_1 i (@pz F) ;;
       z2 <- atom_coord s chain_2 i (@pz F) ;;
       let summ := f_add summ (f_pow2 (f_sub z1 z2)) in
       rmsd_loop s chain_1 chain_2 rest summ)%res
  end.

(** [summ/N]: with [N = 0] the loop has not run and [summ] is the
    integer 0. *)
Definition py_div (summ : F) (N : Z) : res F :=
  if (N =? 0)%Z then Raise ZeroDivisionError else Ok (f_div summ N).

Definition math_sqrt (x : F) : res F :=
  if f_lt0 x then Raise ValueError else Ok (f_sqrt x).

Definition rmsd (chain_1 chain_2 : list Z) (s : structure F) : res F :=
  let N := len chain_1 in
  (summ <- rmsd_loop s chain_1 chain_2 (range 0 N) f_zero ;;
   q <- py_div summ N ;;
   r <- math_sqrt q ;;
   Ok (f_mul10 r))%res.

(** The sum the contract of [rmsd] describes, taken in the order of the
    chains: for each pair of atoms the squared x, y and z differences are
    added, one after the other, to what has been summed so far. *)
Definition add_sq_diff (frame : list (point F)) (summ : F) (ab : Z * Z) : F :=
  let d := {| px := f_zero; py := f_zero; pz := f_zero |} in
  let p := nth (Z.to_nat (fst ab)) frame d in
  let q := nth (Z.to_nat (snd ab)) frame d in
  f_add (f_add (f_add summ (f_pow2 (f_sub (px p) (px q))))
               (f_pow2 (f_sub (py p) (py q))))
        (f_pow2 (f_sub (pz p) (pz q))).

Definition sum_sq_diff (frame : list (point F)) (chain_1 chain_2 : list Z)
  : F :=
  fold_left (add_sq_diff frame) (combine chain_1 chain_2) f_zero.

Definition rmsd_spec (frame : list (point F)) (chain_1 chain_2 : list Z)
  : F :=
  f_mul10 (f_sqrt (f_div (sum_sq_diff frame chain_1 chain_2) (len chain_1))).

Definition valid_chain (frame : list (point F)) (chain : list Z) : Prop :=
  Forall (fun a => (0 <= a < len frame)%Z) chain.
End Rmsd.

(** Exact real arithmetic. *)
#[global] Instance exact : Arith R := {|
  f_zero := 0%R;
  f_sub := Rminus;
  f_pow2 := fun a => pow a 2;
  f_add := Rplus;
  f_div := fun a N => (a / IZR N)%R;
  f_lt0 := fun a => if Rlt_dec a 0 then true else false;
  f_sqrt := sqrt;
  f_mul10 := fun a => (a * 10)%R
|}.

(** An arithmetic that rounds and computes: integers, with quotients and
    square roots rounded down. *)
#[global] Instance rounded_down : Arith Z := {|
  f_zero := 0%Z;
  f_sub := Z.sub;
  f_pow2 := fun a => (a * a)%Z;
  f_add := Z.add;
  f_div := Z.div;
  f_lt0 := fun a => (a <? 0)%Z;
  f_sqrt := Z.sqrt;
  f_mul10 := fun a => (a * 10)%Z
|}.
End Machine.

(** A structure with real coordinates, as the machine model reads it. *)
Definition to_machine_point (p : point) : Machine.point R :=
  {| Machine.px := px p; Machine.py := py p; Machine.pz := pz p |}.

Definition to_machine (s : structure) : Machine.structure R :=
  {| Machine.xyz := map (map to_machine_point) (xyz s);
     Machine.struct_topology := struct_topology s |}.

(** ** The alignment engine and the structure loader *)

Inductive pymol_cmd : Type :=
| Reinitialize
| Load (path : string)
| Copy (target source : string)
| Align (mobile target : string)
| Delete (name : string)
| Select (name : string)
| Save (file : string).

(** A computation that acts on a world [W] and returns or raises; the
    world keeps what was done before an exception. *)
Definition M (W A : Type) : Type := W -> res A * W.

Module Eff.
Definition ret {W A : Type} (a : A) : M W A := fun w => (Ok a, w).

Definition bind {W A B : Type} (m : M W A) (k : A -> M W B) : M W B :=
  fun w =>
    match m w with
    | (Ok a, w') => k a w'
    | (Raise e, w') => (Raise e, w')
    end.

Definition lift {W A : Type} (r : res A) : M W A := fun w => (r, w).

(** [for i in idxs: body(i)] *)
Fixpoint for_each {W : Type} (idxs : list Z) (body : Z -> M W unit)
  : M W unit :=
  match idxs with
  | [] => ret tt
  | i :: rest => bind (body i) (fun _ => for_each rest body)
  end.
End Eff.

Declare Scope eff_scope.
Delimit Scope eff_scope with eff.
Notation "x <- m ;; k" := (Eff.bind m (fun x => k))
  (at level 100, m at next level, right associativity) : eff_scope.
Notation "m ;; k" := (Eff.bind m (fun _ => k))
  (at level 100, right associativity) : eff_scope.

(** The atom subscripts of the chain numbered [i]. *)
Definition chain_atoms (struct : structure) (i : Z) : list Z :=
  map atom_index
      (filter (fun a => (chain_index (residue_chain (atom_residue a)) =? i)%Z)
              (atoms (struct_topology struct))).

(** The last loop of [rmsd_list_from_dimer]. *)
Fixpoint rmsd_list_loop (chain_list : list (list Z)) (struct : structure)
    (idxs : list Z) (rmsd_list : list R) : res (list R) :=
  match idxs with
  | [] => Ok rmsd_list
  | i :: rest =>
      (c0 <- getitem chain_list 0 ;;
       ci <- getitem chain_list (2 * i) ;;
       r <- rmsd c0 ci struct ;;
       rmsd_list_loop chain_list struct rest (rmsd_list ++ [r]))%res
  end.

(** Selections and object names built by the script. *)
Definition copy_name (i : Z) : string := "c" ++ str i.
Definition chain_A_of_copy (i : Z) : string := "/c" ++ str i ++ "//A".
Definition chain_B_of_copy (i : Z) : string := "/c" ++ str i ++ "//B".

Definition default_temp_file : string := "temporary_file.pdb".

(** [v - k] where [v] may be [None]: subtracting from [None] is a
    [TypeError]. *)
Definition py_sub (v : option Z) (k : Z) : res Z :=
  match v with
  | Some i => Ok (i - k)%Z
  | None => Raise TypeError
  end.

Section Engine.
Variable world : Type.
(** [cmd.<command>(...)] *)
Variable pymol : pymol_cmd -> M world unit.
(** [md.load(file)] *)
Variable md_load : string -> M world structure.

Definition rmsd_list_from_dimer (filepath filename : string)
    (list_len : Z) (temp_file : string) : M world (list R) :=
  (pymol Reinitialize ;;
   pymol (Load (filepath ++ "/" ++ filename)) ;;
   Eff.for_each (range 0 list_len)
     (fun i => pymol (Copy (copy_name i) (drop_last filename 4))) ;;
   Eff.for_each (range 0 (list_len - 1))
     (fun i => pymol (Align (chain_A_of_copy (i + 1)) (chain_B_of_copy i))) ;;
   Eff.for_each (range 0 list_len)
     (fun i => pymol (Delete (chain_A_of_copy (i + 1)))) ;;
   pymol (Select "all") ;;
   pymol (Save temp_file) ;;
   struct <- md_load temp_file ;;
   let chain_list :=
     fold_left (fun chain_list i => chain_list ++ [chain_atoms struct i])
               (range 0 (2 * list_len)) [] in
   Eff.lift (rmsd_list_loop chain_list struct (range 0 list_len) []))%eff.

Definition predict_stoichiometry (filepath filename : string)
    (max_expected_stoichiometry : Z) : M world Z :=
  (rmsd_list <- rmsd_list_from_dimer filepath filename
                  max_expected_stoichiometry default_temp_file ;;
   m <- Eff.lift (min_rmsd rmsd_list) ;;
   Eff.lift (py_sub m 1))%eff.
End Engine.

(** An engine that records the commands it is given, in the order they
    are issued, and whose loader returns [loaded]. *)
Module Recorder.
Definition world : Type := list pymol_cmd.

Definition pymol (c : pymol_cmd) : M world unit :=
  fun w => (Ok tt, w ++ [c]).

Definition md_load (loaded : res structure) (file : string)
  : M world structure :=
  fun w => (loaded, w).

(** The names given to [cmd.delete], in order. *)
Definition deleted (w : world) : list string :=
  flat_map (fun c => match c with Delete n => [n] | _ => [] end) w.

(** The objects created by [cmd.copy], in order. *)
Definition copies (w : world) : list string :=
  flat_map (fun c => match c with Copy t _ => [t] | _ => [] end) w.
End Recorder.

(** The commands [rmsd_list_from_dimer] issues, in order. *)
Definition script (filepath filename : string) (list_len : Z)
    (temp_file : string) : list pymol_cmd :=
  [Reinitialize; Load (filepath ++ "/" ++ filename)]
  ++ map (fun i => Copy (copy_name i) (drop_last filename 4)) (range 0 list_len)
  ++ map (fun i => Align (chain_A_of_copy (i + 1)) (chain_B_of_copy i))
         (range 0 (list_len - 1))
  ++ map (fun i => Delete (chain_A_of_copy (i + 1))) (range 0 list_len)
  ++ [Select "all"; Save temp_file].

(** ** Structures used in the examples *)

(** Two atoms 5 nm apart. *)
Definition two_atoms : list point :=
  [ {| px := 0; py := 0; pz := 0 |}; {| px := 3; py := 4; pz := 0 |} ].

Definition two_atom_structure : structure :=
  {| xyz := [two_atoms]; struct_topology := {| atoms := [] |} |}.

(** Two atoms at (0,0,0) and (1,1,0), with integer coordinates. *)
Definition diagonal_atoms : list (Machine.point Z) :=
  [ {| Machine.px := 0%Z; Machine.py := 0%Z; Machine.pz := 0%Z |};
    {| Machine.px := 1%Z; Machine.py := 1%Z; Machine.pz := 0%Z |} ].

Definition diagonal_structure : Machine.structure Z :=
  {| Machine.xyz := [diagonal_atoms];
     Machine.struct_topology := {| atoms := [] |} |}.

(** Four one-atom chains, numbered 0, 2, 4 and 6, on the x axis at 0, 2, 1
    and 3 nm: a walk that first leaves the reference atom, comes back
    towards it and leaves again. *)
Definition on_x_axis (x : R) : point := {| px := x; py := 0; pz := 0 |}.

Definition atom_in_chain (a c : Z) : atom :=
  {| atom_index := a;
     atom_residue := {| residue_chain := {| chain_index := c |} |} |}.

Definition walk_frame : list point :=
  [on_x_axis 0; on_x_axis 2; on_x_axis 1; on_x_axis 3].

Definition walk_structure : structure :=
  {| xyz := [walk_frame];
     struct_topology :=
       {| atoms := [atom_in_chain 0 0; atom_in_chain 1 2;
                    atom_in_chain 2 4; atom_in_chain 3 6] |} |}.

(** What the recording engine holds after a call of [rmsd_list_from_dimer]
    with four copies of [dimer.pdb]. *)
Definition four_copies_log : list pymol_cmd :=
  [Reinitialize; Load ".//dimer.pdb";
   Copy "c0" "dimer"; Copy "c1" "dimer"; Copy "c2" "dimer"; Copy "c3" "dimer";
   Align "/c1//A" "/c0//B"; Align "/c2//A" "/c1//B"; Align "/c3//A" "/c2//B";
   Delete "/c1//A"; Delete "/c2//A"; Delete "/c3//A"; Delete "/c4//A";
   Select "all"; Save "temporary_file.pdb"].

(** ** [draw_rmsd_curve] *)

(** The calls made to the plotting library. *)
Inductive plt_cmd : Type :=
| Scatter (x : list Z) (y : list R)
| Xlabel (label : string)
| Ylabel (label : string).

Section Plot.
Variable world : Type.
Variable pymol : pymol_cmd -> M world unit.
Variable md_load : string -> M world structure.
(** [plt.<call>(...)] *)
Variable plt : plt_cmd -> M world unit.

(** [rmsd_list[1:]] is [skipn 1 rmsd_list]. *)
Definition draw_rmsd_curve (filepath filename : string)
    (max_expected_stoichiometry : Z) : M world unit :=
  (rmsd_list <- rmsd_list_from_dimer pymol md_load filepath filename
                  max_expected_stoichiometry default_temp_file ;;
   plt (Scatter (range 1 max_expected_stoichiometry) (skipn 1 rmsd_list)) ;;
   plt (Xlabel "Protomer N") ;;
   plt (Ylabel "RMSD (1, N), Å"))%eff.
End Plot.

(** ** Notions used to state properties *)

(** The alignments recorded, in order: mobile selection, target
    selection. *)
Definition aligned (w : Recorder.world) : list (string * string) :=
  flat_map (fun c => match c with Align m t => [(m, t)] | _ => [] end) w.

(** A list of reals that never decreases, resp. never increases, from one
    entry to the next. *)
Definition non_decreasing (l : list R) : Prop :=
  forall k x y,
    nth_error l k = Some x -> nth_error l (S k) = Some y -> (x <= y)%R.

Definition non_increasing (l : list R) : Prop :=
  forall k x y,
    nth_error l k = Some x -> nth_error l (S k) = Some y -> (y <= x)%R.

(** * Properties *)

(** ** Ranges and subscripts *)

Lemma range_nil (lo hi : Z) : (hi <= lo)%Z -> range lo hi = [].
Proof.
  intros Hle. unfold range.
  replace (Z.to_nat (hi - lo)) with 0%nat by lia. reflexivity.
Qed.

Lemma range_cons (lo hi : Z) :
  (lo < hi)%Z -> range lo hi = lo :: range (lo + 1) hi.
Proof.
  intros Hlt. unfold range.
  replace (Z.to_nat (hi - lo)) with (S (Z.to_nat (hi - (lo + 1)))) by lia.
  cbn [seq map]. f_equal; [lia|].
  rewrite <- seq_shift, map_map.
  apply map_ext. intros k. lia.
Qed.

Lemma range_length (lo hi : Z) :
  List.length (range lo hi) = Z.to_nat (hi - lo).
Proof. unfold range. now rewrite length_map, length_seq. Qed.

Lemma range_snoc (lo hi : Z) :
  (lo <= hi)%Z -> range lo (hi + 1) = range lo hi ++ [hi].
Proof.
  intros Hle. unfold range.
  replace (Z.to_nat (hi + 1 - lo)) with (Z.to_nat (hi - lo) + 1)%nat by lia.
  rewrite seq_app, map_app. cbn [seq map]. do 2 f_equal. lia.
Qed.

Lemma getitem_in_range {A : Type} (l : list A) (k : Z) :
  (0 <= k < len l)%Z ->
  exists a, nth_error l (Z.to_nat k) = Some a /\ getitem l k = Ok a.
Proof.
  intros [Hlo Hhi]. unfold getitem.
  destruct (k <? 0)%Z eqn:Hneg; [lia|]. rewrite Hneg.
  destruct (nth_error l (Z.to_nat k)) as [a|] eqn:Hnth.
  - now exists a.
  - apply nth_error_None in Hnth. unfold len in Hhi. lia.
Qed.

Lemma getitem_nth {A : Type} (l : list A) (k : Z) (d : A) :
  (0 <= k < len l)%Z -> getitem l k = Ok (nth (Z.to_nat k) l d).
Proof.
  intros Hk. destruct (getitem_in_range l Hk) as (a & Hnth & ->).
  f_equal. symmetry. now apply nth_error_nth.
Qed.

Lemma getitem_nonneg {A : Type} (l : list A) (k : Z) :
  (0 <= k)%Z ->
  getitem l k = match nth_error l (Z.to_nat k) with
                | Some a => Ok a
                | None => Raise IndexError
                end.
Proof.
  intros Hk. unfold getitem.
  destruct (k <? 0)%Z eqn:Hneg; [lia|]. now rewrite Hneg.
Qed.

(** ** [min_rmsd] *)

Section MinRmsdFacts.
Context {A : Type} `{PyLt A}.

(** With both neighbours in the list, one turn of the loop tests
    [strict_local_min] and raises nothing. *)
Lemma min_rmsd_loop_step (l : list A) (i : Z) (rest : list Z) :
  (1 <= i)%Z -> (i + 1 < len l)%Z ->
  min_rmsd_loop l (i :: rest) =
    if strict_local_min l i then Ok (Some i) else min_rmsd_loop l rest.
Proof.
  intros Hlo Hhi.
  destruct (@getitem_in_range A l (i - 1)) as (p & Hp & Ep); [lia|].
  destruct (@getitem_in_range A l i) as (x & Hx & Ex); [lia|].
  destruct (@getitem_in_range A l (i + 1)) as (n & Hn & En); [lia|].
  cbn [min_rmsd_loop]. unfold strict_local_min.
  rewrite Ex, Ep, En, Hp, Hx, Hn. cbn [Res.bind].
  replace (1 <=? i)%Z with true by lia. cbn [andb].
  destruct (py_lt x p); cbn [andb]; [|reflexivity].
  destruct (py_lt x n); reflexivity.
Qed.

(** Over a range that stays inside the list, the loop returns the first
    strict local minimum of the range, or [None] when there is none. *)
Lemma min_rmsd_loop_range (l : list A) (n : nat) :
  forall lo : Z,
    (1 <= lo)%Z -> (lo + Z.of_nat n <= len l - 1)%Z ->
    (min_rmsd_loop l (range lo (lo + Z.of_nat n)) = Ok None /\
     forall j, (lo <= j < lo + Z.of_nat n)%Z -> strict_local_min l j = false)
    \/
    (exists i,
       min_rmsd_loop l (range lo (lo + Z.of_nat n)) = Ok (Some i) /\
       (lo <= i < lo + Z.of_nat n)%Z /\
       strict_local_min l i = true /\
       forall j, (lo <= j < i)%Z -> strict_local_min l j = false).
Proof.
  induction n as [|n IH]; intros lo Hlo Hhi.
  - left. rewrite range_nil by lia. split; [reflexivity|]. intros j Hj. lia.
  - rewrite range_cons by lia.
    rewrite min_rmsd_loop_step by lia.
    destruct (strict_local_min l lo) eqn:Hmin.
    + right. exists lo. split; [reflexivity|]. split; [lia|].
      split; [exact Hmin|]. intros j Hj. lia.
    + replace (lo + Z.of_nat (S n))%Z with (lo + 1 + Z.of_nat n)%Z by lia.
      destruct (IH (lo + 1)%Z) as [[Hnone Hall] | (i & Hsome & Hi & Hmi & Hbefore)];
        try lia.
      * left. split; [exact Hnone|]. intros j Hj.
        destruct (Z.eq_dec j lo) as [->|Hne]; [exact Hmin|]. apply Hall. lia.
      * right. exists i. split; [exact Hsome|]. split; [lia|].
        split; [exact Hmi|]. intros j Hj.
        destruct (Z.eq_dec j lo) as [->|Hne]; [exact Hmin|]. apply Hbefore. lia.
Qed.

(** [min_rmsd] never raises; it returns either [None], and then no index
    from 2 to [len - 2] is a strict local minimum, or the first index in
    that interval that is one. *)
Lemma min_rmsd_cases (l : list A) :
  (min_rmsd l = Ok None /\
   forall j, (2 <= j <= len l - 2)%Z -> strict_local_min l j = false)
  \/
  (exists i,
     min_rmsd l = Ok (Some i) /\
     (2 <= i <= len l - 2)%Z /\
     strict_local_min l i = true /\
     forall j, (2 <= j < i)%Z -> strict_local_min l j = false).
Proof.
  unfold min_rmsd.
  destruct (Z_le_gt_dec (len l - 1) 2) as [Hshort | Hlong].
  - left. rewrite range_nil by lia. split; [reflexivity|]. intros j Hj. lia.
  - pose proof (@min_rmsd_loop_range l (Z.to_nat (len l - 1 - 2)) 2%Z) as Hloop.
    replace (2 + Z.of_nat (Z.to_nat (len l - 1 - 2)))%Z with (len l - 1)%Z
      in Hloop by lia.
    destruct Hloop as [[Hnone Hall] | (i & Hsome & Hi & Hmi & Hbefore)];
      try lia.
    + left. split; [exact Hnone|]. intros j Hj. apply Hall. lia.
    + right. exists i. split; [exact Hsome|]. split; [lia|].
      split; [exact Hmi|]. exact Hbefore.
Qed.
End MinRmsdFacts.

(** ** [rmsd] *)

Lemma atom_coord_point (s : structure) (chain : list Z) (i : Z)
    (axis : point -> R) :
  atom_coord s chain i axis =
    match atom_point s chain i with
    | Ok p => Ok (axis p)
    | Raise e => Raise e
    end.
Proof. reflexivity. Qed.

Lemma getitem_raise {A : Type} (l : list A) (k : Z) (e : exn) :
  getitem l k = Raise e -> e = IndexError.
Proof.
  unfold getitem.
  destruct (_ <? 0)%Z; [congruence|].
  destruct (nth_error _ _); congruence.
Qed.

(** A subscript chain can only fail with [IndexError]. *)
Lemma atom_point_raise (s : structure) (chain : list Z) (i : Z) (e : exn) :
  atom_point s chain i = Raise e -> e = IndexError.
Proof.
  unfold atom_point.
  destruct (getitem (xyz s) 0) as [frame|e0] eqn:E0; cbn [Res.bind].
  - destruct (getitem chain i) as [a|e1] eqn:E1; cbn [Res.bind].
    + apply getitem_raise.
    + intros [= <-]. eapply getitem_raise; eassumption.
  - intros [= <-]. eapply getitem_raise; eassumption.
Qed.

(** One turn of the loop of [rmsd], in terms of the two rows it reads. *)
Lemma rmsd_loop_step (s : structure) (c1 c2 : list Z) (i : Z)
    (rest : list Z) (summ : R) :
  rmsd_loop s c1 c2 (i :: rest) summ =
    match atom_point s c1 i, atom_point s c2 i with
    | Ok p, Ok q => rmsd_loop s c1 c2 rest (summ + sq_dist p q)%R
    | Raise e, _ => Raise e
    | Ok _, Raise e => Raise e
    end.
Proof.
  cbn [rmsd_loop]. rewrite !atom_coord_point.
  destruct (atom_point s c1 i) as [p|e]; cbn [Res.bind]; [|reflexivity].
  destruct (atom_point s c2 i) as [q|e]; cbn [Res.bind]; [|reflexivity].
  f_equal. unfold sq_dist. ring.
Qed.

Lemma sq_dist_sym (p q : point) : sq_dist p q = sq_dist q p.
Proof. unfold sq_dist. ring. Qed.


Lemma sq_dist_nonneg (p q : point) : (0 <= sq_dist p q)%R.
Proof.
  unfold sq_dist.
  pose proof (pow2_ge_0 (px p - px q)).
  pose proof (pow2_ge_0 (py p - py q)).
  pose proof (pow2_ge_0 (pz p - pz q)).
  lra.
Qed.

(** Swapping the chains changes neither the sum nor the exception. *)
Lemma rmsd_loop_sym (s : structure) (c1 c2 : list Z) (idxs : list Z) :
  forall summ, rmsd_loop s c1 c2 idxs summ = rmsd_loop s c2 c1 idxs summ.
Proof.
  induction idxs as [|i rest IH]; intros summ; [reflexivity|].
  rewrite !rmsd_loop_step.
  destruct (atom_point s c1 i) as [p|e1] eqn:E1;
    destruct (atom_point s c2 i) as [q|e2] eqn:E2.
  - rewrite (sq_dist_sym p q). apply IH.
  - reflexivity.
  - reflexivity.
  - apply atom_point_raise in E1, E2. congruence.
Qed.


(** The loop only reads [chain_2] at the subscripts it visits. *)
Lemma getitem_firstn {A : Type} (l : list A) (n : nat) (k : Z) :
  (0 <= k < Z.of_nat n)%Z -> (n <= List.length l)%nat ->
  getitem (firstn n l) k = getitem l k.
Proof.
  intros Hk Hn. rewrite !getitem_nonneg by lia.
  rewrite nth_error_firstn.
  replace (Z.to_nat k <? n)%nat with true; [reflexivity|].
  symmetry. apply Nat.ltb_lt. lia.
Qed.

Lemma rmsd_loop_firstn (s : structure) (c1 c2 : list Z) (n : nat)
    (idxs : list Z) :
  (n <= List.length c2)%nat ->
  Forall (fun i => (0 <= i < Z.of_nat n)%Z) idxs ->
  forall summ,
    rmsd_loop s c1 (firstn n c2) idxs summ = rmsd_loop s c1 c2 idxs summ.
Proof.
  intros Hn Hidx. induction Hidx as [|i rest Hi _ IH]; intros summ.
  - reflexivity.
  - rewrite !rmsd_loop_step.
    assert (Hpt : atom_point s (firstn n c2) i = atom_point s c2 i).
    { unfold atom_point. now rewrite getitem_firstn. }
    rewrite Hpt.
    destruct (atom_point s c1 i); [|reflexivity].
    destruct (atom_point s c2 i); [apply IH|reflexivity].
Qed.

Lemma range_Forall (lo hi : Z) :
  Forall (fun i => (lo <= i < hi)%Z) (range lo hi).
Proof.
  unfold range. apply Forall_forall. intros i Hin.
  apply in_map_iff in Hin. destruct Hin as (k & <- & Hk).
  apply in_seq in Hk. lia.
Qed.

Lemma getitem_app_here {A : Type} (pre l : list A) (a : A) :
  getitem (pre ++ a :: l) (len pre) = Ok a.
Proof.
  rewrite getitem_nonneg by (unfold len; lia).
  unfold len. rewrite Nat2Z.id, nth_error_app2 by lia.
  now rewrite Nat.sub_diag.
Qed.

Lemma sum_sq_dist_nonneg (frame : list point) (c1 c2 : list Z) :
  (0 <= sum_sq_dist frame c1 c2)%R.
Proof.
  unfold sum_sq_dist.
  induction (combine c1 c2) as [|ab l IH]; cbn [map fold_right]; [lra|].
  pose proof (sq_dist_nonneg (nth (Z.to_nat (fst ab)) frame origin)
                             (nth (Z.to_nat (snd ab)) frame origin)).
  lra.
Qed.

(** On chains of equal length whose entries are in range, the loop visits
    every pair and accumulates the sum of their squared distances. *)
Lemma rmsd_loop_valid (s : structure) (frame : list point) :
  getitem (xyz s) 0 = Ok frame ->
  forall l1 l2 pre1 pre2 summ,
    List.length pre1 = List.length pre2 ->
    List.length l1 = List.length l2 ->
    valid_chain frame l1 -> valid_chain frame l2 ->
    rmsd_loop s (pre1 ++ l1) (pre2 ++ l2)
              (range (len pre1) (len pre1 + len l1)) summ
    = Ok (summ + sum_sq_dist frame l1 l2)%R.
Proof.
  intros Hframe.
  induction l1 as [|a l1 IH]; intros l2 pre1 pre2 summ Hpre Hlen V1 V2.
  - destruct l2; [|discriminate]. rewrite range_nil by (unfold len; cbn; lia).
    cbn. f_equal. lra.
  - destruct l2 as [|b l2]; [discriminate|].
    inversion V1 as [|? ? Ha V1']; subst.
    inversion V2 as [|? ? Hb V2']; subst.
    rewrite range_cons by (unfold len; cbn [List.length]; lia).
    rewrite rmsd_loop_step.
    assert (P1 : atom_point s (pre1 ++ a :: l1) (len pre1)
                 = Ok (nth (Z.to_nat a) frame origin)).
    { unfold atom_point. rewrite Hframe, getitem_app_here. cbn [Res.bind].
      now apply getitem_nth. }
    assert (P2 : atom_point s (pre2 ++ b :: l2) (len pre1)
                 = Ok (nth (Z.to_nat b) frame origin)).
    { unfold atom_point. rewrite Hframe.
      replace (len pre1) with (len pre2) by (unfold len; now rewrite Hpre).
      rewrite getitem_app_here. cbn [Res.bind]. now apply getitem_nth. }
    rewrite P1, P2.
    replace (pre1 ++ a :: l1) with ((pre1 ++ [a]) ++ l1)
      by now rewrite <- app_assoc.
    replace (pre2 ++ b :: l2) with ((pre2 ++ [b]) ++ l2)
      by now rewrite <- app_assoc.
    replace (len pre1 + 1)%Z with (len (pre1 ++ [a]))
      by (unfold len; rewrite length_app; cbn [List.length]; lia).
    replace (len pre1 + len (a :: l1))%Z with (len (pre1 ++ [a]) + len l1)%Z
      by (unfold len; rewrite length_app; cbn [List.length]; lia).
    rewrite IH; auto.
    + f_equal. unfold sum_sq_dist. cbn [combine map fold_right fst snd]. lra.
    + rewrite !length_app. cbn [List.length]. lia.
Qed.

(** On a non-empty chain the quotient is taken and its root exists. *)
Lemma rmsd_of_sum (s : structure) (c1 c2 : list Z) (summ : R) :
  c1 <> [] -> (0 <= summ)%R ->
  rmsd_loop s c1 c2 (range 0 (len c1)) 0%R = Ok summ ->
  rmsd c1 c2 s = Ok (sqrt (summ / INR (List.length c1)) * 10)%R.
Proof.
  intros Hne Hpos Hloop. unfold rmsd. rewrite Hloop. cbn [Res.bind].
  assert (Hlen : (0 < List.length c1)%nat)
    by (destruct c1; [congruence | cbn; lia]).
  unfold py_div. replace (len c1 =? 0)%Z with false by (unfold len; lia).
  cbn [Res.bind]. unfold len. rewrite <- INR_IZR_INZ.
  assert (HN : (0 < INR (List.length c1))%R) by now apply lt_0_INR.
  unfold math_sqrt.
  destruct (Rlt_dec (summ / INR (List.length c1)) 0) as [Hneg|_].
  - exfalso. apply (Rlt_not_le _ _ Hneg).
    apply Rmult_le_pos; [lra|]. left. now apply Rinv_0_lt_compat.
  - reflexivity.
Qed.

(** ** Comparisons of reals *)

Lemma py_lt_R_true (x y : R) : py_lt x y = true <-> (x < y)%R.
Proof.
  unfold py_lt, PyLt_R. destruct (Rlt_dec x y); split; intros; auto; discriminate.
Qed.

Lemma py_lt_R_false (x y : R) : py_lt x y = false <-> (y <= x)%R.
Proof.
  unfold py_lt, PyLt_R. destruct (Rlt_dec x y); split; intros; auto;
    try discriminate; lra.
Qed.

(** The embedding of the integers into the reals keeps the order, so
    [min_rmsd] sees the same comparisons on a list of integers and on its
    image. *)
Lemma py_lt_IZR (a b : Z) : py_lt (IZR a) (IZR b) = py_lt a b.
Proof.
  unfold py_lt at 2, PyLt_Z.
  destruct (a <? b)%Z eqn:E.
  - apply py_lt_R_true, IZR_lt. lia.
  - apply py_lt_R_false, IZR_le. lia.
Qed.

Section Transport.
Context {A B : Type} `{PyLt A} `{PyLt B}.
Variable f : A -> B.
Hypothesis f_lt : forall a b, py_lt (f a) (f b) = py_lt a b.

Lemma getitem_map (l : list A) (k : Z) :
  getitem (map f l) k =
    match getitem l k with Ok a => Ok (f a) | Raise e => Raise e end.
Proof.
  unfold getitem, len. rewrite length_map, nth_error_map.
  destruct (_ <? 0)%Z; [reflexivity|].
  destruct (nth_error l _); reflexivity.
Qed.

Lemma min_rmsd_loop_map (l : list A) (idxs : list Z) :
  min_rmsd_loop (map f l) idxs = min_rmsd_loop l idxs.
Proof.
  induction idxs as [|i rest IH]; [reflexivity|].
  cbn [min_rmsd_loop]. rewrite !getitem_map.
  destruct (getitem l i) as [x|e]; cbn [Res.bind]; [|reflexivity].
  destruct (getitem l (i - 1)) as [p|e]; cbn [Res.bind]; [|reflexivity].
  rewrite f_lt. destruct (py_lt x p); [|exact IH].
  destruct (getitem l (i + 1)) as [n|e]; cbn [Res.bind]; [|reflexivity].
  rewrite f_lt. destruct (py_lt x n); [reflexivity|exact IH].
Qed.

Lemma min_rmsd_map (l : list A) : min_rmsd (map f l) = min_rmsd l.
Proof.
  unfold min_rmsd, len. rewrite length_map. apply min_rmsd_loop_map.
Qed.

Lemma strict_local_min_map (l : list A) (i : Z) :
  strict_local_min (map f l) i = strict_local_min l i.
Proof.
  unfold strict_local_min. rewrite !nth_error_map.
  destruct (nth_error l (Z.to_nat (i - 1))); cbn [option_map]; [|reflexivity].
  destruct (nth_error l (Z.to_nat i)); cbn [option_map]; [|reflexivity].
  destruct (nth_error l (Z.to_nat (i + 1))); cbn [option_map]; [|reflexivity].
  now rewrite !f_lt.
Qed.
End Transport.

(** ** The claims about [min_rmsd] *)

(** C1. For every list of real numbers, [min_rmsd] returns index [i]
    exactly when [i] lies between 2 and [len - 2], is a strict local
    minimum of the list, and no index from 2 up to [i] is one: it returns
    the first strict local minimum met when scanning that range upwards.
    On [5,4,3,2,3,4,5] it returns 3. *)
Theorem min_rmsd_first_strict_local_min :
  forall rmsd_list : list R,
    (forall i : Z,
        min_rmsd rmsd_list = Ok (Some i) <->
        ((2 <= i <= len rmsd_list - 2)%Z /\
         strict_local_min rmsd_list i = true /\
         forall j, (2 <= j < i)%Z -> strict_local_min rmsd_list j = false))
    /\ min_rmsd [5; 4; 3; 2; 3; 4; 5]%R = Ok (Some 3%Z).
Proof.
  intros l. split.
  - intros i. split.
    + intros Hret.
      destruct (min_rmsd_cases l)
        as [[Hnone _] | (i' & Hsome & Hi & Hmi & Hbefore)]; [congruence|].
      assert (i' = i) by congruence. subst i'. auto.
    + intros (Hi & Hmi & Hbefore).
      destruct (min_rmsd_cases l)
        as [[_ Hall] | (i' & Hsome & Hi' & Hmi' & Hbefore')].
      * rewrite Hall in Hmi by lia. discriminate.
      * destruct (Z.lt_trichotomy i' i) as [Hlt | [-> | Hgt]].
        -- rewrite Hbefore in Hmi' by lia. discriminate.
        -- exact Hsome.
        -- rewrite Hbefore' in Hmi by lia. discriminate.
  - change [5; 4; 3; 2; 3; 4; 5]%R with (map IZR [5; 4; 3; 2; 3; 4; 5]%Z).
    rewrite (min_rmsd_map IZR py_lt_IZR). reflexivity.
Qed.

(** [min_rmsd] on [5,4,3,2,3,4,5]: index 3 is in range, is a strict local
    minimum and index 2 is not, so 3 is returned. *)
Lemma min_rmsd_first_strict_local_min_witness :
  min_rmsd [5; 4; 3; 2; 3; 4; 5]%R = Ok (Some 3%Z).
Proof.
  apply (proj1 (min_rmsd_first_strict_local_min [5; 4; 3; 2; 3; 4; 5]%R) 3%Z).
  change [5; 4; 3; 2; 3; 4; 5]%R with (map IZR [5; 4; 3; 2; 3; 4; 5]%Z).
  split; [cbn; lia|]. split.
  - rewrite (strict_local_min_map IZR py_lt_IZR). reflexivity.
  - intros j Hj. assert (j = 2%Z) as -> by lia.
    rewrite (strict_local_min_map IZR py_lt_IZR). reflexivity.
Defined.

(** The same run on Python integers, by evaluation. *)
Example min_rmsd_on_integers :
  min_rmsd [5; 4; 3; 2; 3; 4; 5]%Z = Ok (Some 3%Z) /\
  min_rmsd [5; 4; 3; 2; 1]%Z = Ok None /\
  min_rmsd [3; 1; 3]%Z = Ok None.
Proof. repeat split. Qed.

(** C5. For every list of real numbers with no strict local minimum at
    any index from 2 to [len - 2], [min_rmsd] raises nothing and returns
    [None], the value that stands for "not found". *)
Theorem min_rmsd_none_when_no_local_min :
  forall rmsd_list : list R,
    (forall j, (2 <= j <= len rmsd_list - 2)%Z ->
               strict_local_min rmsd_list j = false) ->
    min_rmsd rmsd_list = Ok None.
Proof.
  intros l Hall.
  destruct (min_rmsd_cases l) as [[Hnone _] | (i & _ & Hi & Hmi & _)].
  - exact Hnone.
  - rewrite Hall in Hmi by lia. discriminate.
Qed.

(** The decreasing list [5,4,3,2,1] has no strict local minimum at 2 or 3
    and [min_rmsd] returns [None] on it. *)
Lemma min_rmsd_none_when_no_local_min_witness :
  min_rmsd [5; 4; 3; 2; 1]%R = Ok None.
Proof.
  apply min_rmsd_none_when_no_local_min.
  intros j Hj. cbn in Hj.
  assert (Hcases : j = 2%Z \/ j = 3%Z) by lia.
  change [5; 4; 3; 2; 1]%R with (map IZR [5; 4; 3; 2; 1]%Z).
  rewrite (strict_local_min_map IZR py_lt_IZR).
  destruct Hcases as [-> | ->]; reflexivity.
Defined.

(** ** The claims about [rmsd] *)

(** Whatever the loop raises is an [IndexError]. *)
Lemma rmsd_loop_raise (s : structure) (c1 c2 : list Z) (idxs : list Z) :
  forall summ e, rmsd_loop s c1 c2 idxs summ = Raise e -> e = IndexError.
Proof.
  induction idxs as [|i rest IH]; intros summ e; [discriminate|].
  rewrite rmsd_loop_step.
  destruct (atom_point s c1 i) as [p|e1] eqn:E1.
  - destruct (atom_point s c2 i) as [q|e2] eqn:E2.
    + apply IH.
    + intros [= <-]. eapply atom_point_raise; eassumption.
  - intros [= <-]. eapply atom_point_raise; eassumption.
Qed.

(** A loop that completes has read [chain_2] at every index it visited. *)
Lemma rmsd_loop_ok_reads (s : structure) (c1 c2 : list Z) (idxs : list Z) :
  forall summ r,
    rmsd_loop s c1 c2 idxs summ = Ok r ->
    Forall (fun i => exists a, getitem c2 i = Ok a) idxs.
Proof.
  induction idxs as [|i rest IH]; intros summ r Hok; [constructor|].
  rewrite rmsd_loop_step in Hok.
  destruct (atom_point s c1 i) as [p|e1]; [|discriminate].
  destruct (atom_point s c2 i) as [q|e2] eqn:E2; [|discriminate].
  constructor; [|eapply IH; eassumption].
  unfold atom_point in E2.
  destruct (getitem (xyz s) 0); [|discriminate]. cbn [Res.bind] in E2.
  destruct (getitem c2 i) as [v|]; [now exists v | discriminate].
Qed.

Lemma getitem_at_len {A : Type} (l : list A) : getitem l (len l) = Raise IndexError.
Proof.
  rewrite getitem_nonneg by (unfold len; lia).
  unfold len. rewrite Nat2Z.id.
  now rewrite (proj2 (nth_error_None l (List.length l)) (Nat.le_refl _)).
Qed.

Lemma range_In (lo hi i : Z) : (lo <= i < hi)%Z -> In i (range lo hi).
Proof.
  intros Hi. unfold range. apply in_map_iff.
  exists (Z.to_nat (i - lo)). split; [lia|]. apply in_seq. lia.
Qed.

(** With a longer first chain the loop runs past the end of the second. *)
Lemma rmsd_longer_first (s : structure) (c1 c2 : list Z) :
  (List.length c2 < List.length c1)%nat ->
  rmsd c1 c2 s = Raise IndexError.
Proof.
  intros Hlen. unfold rmsd.
  destruct (rmsd_loop s c1 c2 (range 0 (len c1)) 0%R) as [r|e] eqn:Hloop.
  - exfalso. apply rmsd_loop_ok_reads in Hloop.
    rewrite Forall_forall in Hloop.
    destruct (Hloop (len c2)) as [a Ha].
    + apply range_In. unfold len. lia.
    + rewrite getitem_at_len in Ha. discriminate.
  - apply rmsd_loop_raise in Hloop. now subst.
Qed.

(** With a longer second chain only its first [len(chain_1)] entries are
    read. *)
Lemma rmsd_longer_second (s : structure) (c1 c2 : list Z) :
  (List.length c1 <= List.length c2)%nat ->
  rmsd c1 c2 s = rmsd c1 (firstn (List.length c1) c2) s.
Proof.
  intros Hlen. unfold rmsd.
  rewrite rmsd_loop_firstn; [reflexivity | exact Hlen | apply range_Forall].
Qed.

(** The contract of [rmsd] on chains of equal length with entries in
    range. *)
Lemma rmsd_valid (s : structure) (frame : list point) (c1 c2 : list Z) :
  getitem (xyz s) 0 = Ok frame ->
  List.length c1 = List.length c2 ->
  (0 < List.length c1)%nat ->
  valid_chain frame c1 -> valid_chain frame c2 ->
  rmsd c1 c2 s = Ok (rmsd_spec frame c1 c2).
Proof.
  intros Hframe Hlen Hpos V1 V2.
  apply rmsd_of_sum.
  - destruct c1; [cbn in Hpos; lia | discriminate].
  - apply sum_sq_dist_nonneg.
  - pose proof (@rmsd_loop_valid s frame Hframe c1 c2 [] [] 0%R
                  eq_refl Hlen V1 V2) as Hloop.
    cbn [app] in Hloop. change (len (@nil Z)) with 0%Z in Hloop.
    rewrite Z.add_0_l, Rplus_0_l in Hloop. exact Hloop.
Qed.

(** *** The contract in machine arithmetic *)

Section MachineRmsd.
Context {F : Type} `{Machine.ArithLaws F}.

(** One turn of the loop, in terms of the two rows it reads: the three
    squared differences are added in turn. *)
Lemma machine_rmsd_loop_step (s : Machine.structure F) (c1 c2 : list Z)
    (i : Z) (rest : list Z) (summ : F) :
  Machine.rmsd_loop s c1 c2 (i :: rest) summ =
    match Machine.atom_point s c1 i, Machine.atom_point s c2 i with
    | Ok p, Ok q =>
        Machine.rmsd_loop s c1 c2 rest
          (Machine.f_add
             (Machine.f_add
                (Machine.f_add summ
                   (Machine.f_pow2
                      (Machine.f_sub (Machine.px p) (Machine.px q))))
                (Machine.f_pow2
                   (Machine.f_sub (Machine.py p) (Machine.py q))))
             (Machine.f_pow2
                (Machine.f_sub (Machine.pz p) (Machine.pz q))))
    | Raise e, _ => Raise e
    | Ok _, Raise e => Raise e
    end.
Proof.
  cbn [Machine.rmsd_loop]. unfold Machine.atom_coord.
  destruct (Machine.atom_point s c1 i) as [p|e]; cbn [Res.bind];
    [|reflexivity].
  destruct (Machine.atom_point s c2 i) as [q|e]; cbn [Res.bind]; reflexivity.
Qed.

(** On chains of equal length whose entries are in range the loop raises
    nothing and returns the sum of the contract. *)
Lemma machine_rmsd_loop_valid (s : Machine.structure F)
    (frame : list (Machine.point F)) :
  getitem (Machine.xyz s) 0 = Ok frame ->
  forall l1 l2 pre1 pre2 summ,
    List.length pre1 = List.length pre2 ->
    List.length l1 = List.length l2 ->
    Machine.valid_chain frame l1 -> Machine.valid_chain frame l2 ->
    Machine.rmsd_loop s (pre1 ++ l1) (pre2 ++ l2)
                      (range (len pre1) (len pre1 + len l1)) summ
    = Ok (fold_left (Machine.add_sq_diff frame) (combine l1 l2) summ).
Proof.
  intros Hframe.
  induction l1 as [|a l1 IH]; intros l2 pre1 pre2 summ Hpre Hlen V1 V2.
  - destruct l2; [|discriminate]. rewrite range_nil by (unfold len; cbn; lia).
    reflexivity.
  - destruct l2 as [|b l2]; [discriminate|].
    inversion V1 as [|? ? Ha V1']; subst.
    inversion V2 as [|? ? Hb V2']; subst.
    rewrite range_cons by (unfold len; cbn [List.length]; lia).
    rewrite machine_rmsd_loop_step.
    set (d := {| Machine.px := Machine.f_zero; Machine.py := Machine.f_zero;
                 Machine.pz := Machine.f_zero |}).
    assert (P1 : Machine.atom_point s (pre1 ++ a :: l1) (len pre1)
                 = Ok (nth (Z.to_nat a) frame d)).
    { unfold Machine.atom_point. rewrite Hframe, getitem_app_here.
      cbn [Res.bind]. now apply getitem_nth. }
    assert (P2 : Machine.atom_point s (pre2 ++ b :: l2) (len pre1)
                 = Ok (nth (Z.to_nat b) frame d)).
    { unfold Machine.atom_point. rewrite Hframe.
      replace (len pre1) with (len pre2) by (unfold len; now rewrite Hpre).
      rewrite getitem_app_here. cbn [Res.bind]. now apply getitem_nth. }
    rewrite P1, P2.
    replace (pre1 ++ a :: l1) with ((pre1 ++ [a]) ++ l1)
      by now rewrite <- app_assoc.
    replace (pre2 ++ b :: l2) with ((pre2 ++ [b]) ++ l2)
      by now rewrite <- app_assoc.
    replace (len pre1 + 1)%Z with (len (pre1 ++ [a]))
      by (unfold len; rewrite length_app; cbn [List.length]; lia).
    replace (len pre1 + len (a :: l1))%Z with (len (pre1 ++ [a]) + len l1)%Z
      by (unfold len; rewrite length_app; cbn [List.length]; lia).
    rewrite IH; auto.
    rewrite !length_app. cbn [List.length]. lia.
Qed.

(** The sum is never below zero, so [math.sqrt] accepts its quotient. *)
Lemma machine_sum_not_below_zero (frame : list (Machine.point F))
    (pairs : list (Z * Z)) :
  forall summ,
    Machine.f_lt0 summ = false ->
    Machine.f_lt0 (fold_left (Machine.add_sq_diff frame) pairs summ) = false.
Proof.
  induction pairs as [|ab pairs IH]; intros summ Hsumm; [exact Hsumm|].
  cbn [fold_left]. apply IH. unfold Machine.add_sq_diff.
  repeat (apply Machine.lt0_add; [|apply Machine.lt0_pow2]). exact Hsumm.
Qed.

(** C3. On a structure with a frame 0, for chains of equal length
    [N > 0] whose entries are subscripts in range for that frame, [rmsd]
    raises nothing and returns the square root of the sum, over the
    paired atoms in order, of their squared x, y and z differences,
    divided by [N], times 10.0, each operation being the machine's. *)
Theorem machine_rmsd_meets_contract :
  forall (s : Machine.structure F) (frame : list (Machine.point F))
         (chain_1 chain_2 : list Z),
    getitem (Machine.xyz s) 0 = Ok frame ->
    List.length chain_1 = List.length chain_2 ->
    (0 < List.length chain_1)%nat ->
    Machine.valid_chain frame chain_1 -> Machine.valid_chain frame chain_2 ->
    Machine.rmsd chain_1 chain_2 s
    = Ok (Machine.rmsd_spec frame chain_1 chain_2).
Proof.
  intros s frame c1 c2 Hframe Hlen Hpos V1 V2.
  pose proof (@machine_rmsd_loop_valid s frame Hframe c1 c2 [] []
                Machine.f_zero eq_refl Hlen V1 V2) as Hloop.
  cbn [app] in Hloop. change (len (@nil Z)) with 0%Z in Hloop.
  rewrite Z.add_0_l in Hloop.
  unfold Machine.rmsd. rewrite Hloop. cbn [Res.bind].
  unfold Machine.py_div.
  replace (len c1 =? 0)%Z with false by (unfold len; lia). cbn [Res.bind].
  unfold Machine.math_sqrt.
  rewrite Machine.lt0_div;
    [reflexivity
    | apply machine_sum_not_below_zero, Machine.lt0_zero
    | unfold len; lia].
Qed.
End MachineRmsd.

(** Exact real arithmetic meets what is assumed of the machine's. *)
#[global] Instance exact_laws : @Machine.ArithLaws R Machine.exact.
Proof.
  split; cbn.
  - destruct (Rlt_dec 0 0); [lra | reflexivity].
  - intros a. destruct (Rlt_dec (a * (a * 1)) 0) as [Hneg|]; [|reflexivity].
    pose proof (pow2_ge_0 a) as Hsq. cbn in Hsq. lra.
  - intros a b Ha Hb.
    destruct (Rlt_dec a 0); [discriminate|].
    destruct (Rlt_dec b 0); [discriminate|].
    destruct (Rlt_dec (a + b) 0); [lra | reflexivity].
  - intros a N Ha HN.
    destruct (Rlt_dec a 0); [discriminate|].
    destruct (Rlt_dec (a / IZR N) 0) as [Hneg|]; [|reflexivity].
    exfalso. apply (Rlt_not_le _ _ Hneg).
    apply Rmult_le_pos; [lra|]. left. apply Rinv_0_lt_compat.
    now apply IZR_lt.
Qed.

#[global] Instance rounded_down_laws
  : @Machine.ArithLaws Z Machine.rounded_down.
Proof.
  split; cbn.
  - reflexivity.
  - intros a. apply Z.ltb_ge. nia.
  - intros a b Ha Hb. apply Z.ltb_ge in Ha, Hb. apply Z.ltb_ge. lia.
  - intros a N Ha HN. apply Z.ltb_ge in Ha. apply Z.ltb_ge.
    now apply Z.div_pos.
Qed.

(** [rmsd] is [Machine.rmsd] with exact real arithmetic. *)
Lemma atom_point_to_machine (s : structure) (chain : list Z) (i : Z) :
  Machine.atom_point (to_machine s) chain i =
    match atom_point s chain i with
    | Ok p => Ok (to_machine_point p)
    | Raise e => Raise e
    end.
Proof.
  unfold Machine.atom_point, atom_point, to_machine. cbn [Machine.xyz].
  rewrite (getitem_map (map to_machine_point)).
  destruct (getitem (xyz s) 0) as [frame|e]; cbn [Res.bind]; [|reflexivity].
  destruct (getitem chain i) as [a|e]; cbn [Res.bind]; [|reflexivity].
  apply getitem_map.
Qed.

Lemma rmsd_loop_to_machine (s : structure) (c1 c2 : list Z) (idxs : list Z) :
  forall summ : R,
    Machine.rmsd_loop (to_machine s) c1 c2 idxs summ
    = rmsd_loop s c1 c2 idxs summ.
Proof.
  induction idxs as [|i rest IH]; intros summ; [reflexivity|].
  rewrite machine_rmsd_loop_step, !atom_point_to_machine.
  cbn [rmsd_loop]. rewrite !atom_coord_point.
  destruct (atom_point s c1 i) as [p|e]; cbn [Res.bind]; [|reflexivity].
  destruct (atom_point s c2 i) as [q|e]; cbn [Res.bind]; [|reflexivity].
  apply IH.
Qed.

Lemma rmsd_to_machine (s : structure) (c1 c2 : list Z) :
  Machine.rmsd c1 c2 (to_machine s) = rmsd c1 c2 s.
Proof.
  unfold Machine.rmsd, rmsd. rewrite rmsd_loop_to_machine.
  change (@Machine.f_zero R Machine.exact) with 0%R.
  destruct (rmsd_loop s c1 c2 (range 0 (len c1)) 0%R) as [summ|e];
    [|reflexivity].
  cbn [Res.bind]. unfold Machine.py_div, py_div.
  destruct (len c1 =? 0)%Z; [reflexivity|]. cbn [Res.bind].
  unfold Machine.math_sqrt, math_sqrt. cbn [Machine.f_lt0 Machine.exact Machine.f_div].
  destruct (Rlt_dec (summ / IZR (len c1)) 0); reflexivity.
Qed.

Lemma valid_two_atoms_0 : valid_chain two_atoms [0%Z].
Proof. repeat constructor; cbn; lia. Qed.

Lemma valid_two_atoms_1 : valid_chain two_atoms [1%Z].
Proof. repeat constructor; cbn; lia. Qed.

Lemma rmsd_spec_two_atoms : rmsd_spec two_atoms [0%Z] [1%Z] = 50%R.
Proof.
  unfold rmsd_spec.
  assert (Hsum : sum_sq_dist two_atoms [0%Z] [1%Z] = (5 * 5)%R).
  { unfold sum_sq_dist, sq_dist. cbn [combine map fold_right fst snd].
    change (Z.to_nat 0) with 0%nat. change (Z.to_nat 1) with 1%nat.
    cbn [nth two_atoms px py pz]. ring. }
  rewrite Hsum. cbn [List.length INR].
  replace (5 * 5 / 1)%R with (5 * 5)%R by lra.
  rewrite sqrt_square by lra. lra.
Qed.

(** With the arithmetic that rounds down, the atoms (0,0,0) and (1,1,0)
    are at 10: the sum is 2, its root is rounded to 1. *)
Lemma machine_rmsd_meets_contract_witness :
  Machine.rmsd [0%Z] [1%Z] diagonal_structure
  = Ok (Machine.rmsd_spec diagonal_atoms [0%Z] [1%Z]) /\
  Machine.rmsd_spec diagonal_atoms [0%Z] [1%Z] = 10%Z.
Proof.
  split; [|reflexivity].
  apply machine_rmsd_meets_contract.
  - reflexivity.
  - reflexivity.
  - cbn. lia.
  - repeat constructor; cbn; lia.
  - repeat constructor; cbn; lia.
Defined.

(** C4, as the code has it. [rmsd] does not compare the lengths of its
    chains.  When the first chain is the longer one the loop subscripts the
    second chain past its end and [IndexError] is raised; when the second
    chain is the longer one, [rmsd] returns what it returns on the first
    chain and the first [len(chain_1)] entries of the second, which is a
    number when the first chain is not empty and the entries read are in
    range. *)
Theorem rmsd_unequal_lengths :
  forall (s : structure) (chain_1 chain_2 : list Z),
    ((List.length chain_2 < List.length chain_1)%nat ->
     rmsd chain_1 chain_2 s = Raise IndexError)
    /\
    ((List.length chain_1 < List.length chain_2)%nat ->
     rmsd chain_1 chain_2 s
       = rmsd chain_1 (firstn (List.length chain_1) chain_2) s
     /\
     forall frame,
       getitem (xyz s) 0 = Ok frame ->
       (0 < List.length chain_1)%nat ->
       valid_chain frame chain_1 ->
       valid_chain frame (firstn (List.length chain_1) chain_2) ->
       rmsd chain_1 chain_2 s
         = Ok (rmsd_spec frame chain_1 (firstn (List.length chain_1) chain_2))).
Proof.
  intros s c1 c2. split.
  - apply rmsd_longer_first.
  - intros Hlen.
    assert (Hpre : rmsd c1 c2 s = rmsd c1 (firstn (List.length c1) c2) s)
      by (apply rmsd_longer_second; lia).
    split; [exact Hpre|].
    intros frame Hframe Hpos V1 V2. rewrite Hpre.
    apply rmsd_valid; auto.
    rewrite length_firstn. lia.
Qed.

(** A chain of two atoms against a chain of one raises [IndexError]; a
    chain of one atom against a chain of two returns the distance to the
    first of the two. *)
Lemma rmsd_unequal_lengths_witness :
  rmsd [0%Z; 1%Z] [1%Z] two_atom_structure = Raise IndexError /\
  rmsd [0%Z] [1%Z; 0%Z] two_atom_structure
    = Ok (rmsd_spec two_atoms [0%Z] [1%Z]).
Proof.
  split.
  - apply (proj1 (rmsd_unequal_lengths two_atom_structure [0%Z; 1%Z] [1%Z])).
    cbn. lia.
  - refine (proj2 (proj2 (rmsd_unequal_lengths two_atom_structure
                            [0%Z] [1%Z; 0%Z]) _) two_atoms _ _ _ _).
    + cbn. lia.
    + reflexivity.
    + cbn. lia.
    + exact valid_two_atoms_0.
    + exact valid_two_atoms_1.
Defined.

(** C4, as stated, fails: the chains [0] and [1, 0] differ in length and
    [rmsd] returns 50, the distance between atoms 0 and 1 in Angstroms,
    never reading the second entry of the longer chain. *)
Lemma rmsd_unequal_lengths_returns :
  List.length [0%Z] <> List.length [1%Z; 0%Z] /\
  rmsd [0%Z] [1%Z; 0%Z] two_atom_structure = Ok 50%R /\
  ~ (exists e, rmsd [0%Z] [1%Z; 0%Z] two_atom_structure = Raise e).
Proof.
  assert (Hret : rmsd [0%Z] [1%Z; 0%Z] two_atom_structure = Ok 50%R).
  { rewrite rmsd_longer_second by (cbn; lia).
    cbn [List.length firstn].
    rewrite (@rmsd_valid two_atom_structure two_atoms [0%Z] [1%Z]);
      try reflexivity.
    - now rewrite rmsd_spec_two_atoms.
    - cbn. lia.
    - exact valid_two_atoms_0.
    - exact valid_two_atoms_1. }
  split; [cbn; lia|]. split; [exact Hret|].
  intros [e He]. rewrite Hret in He. discriminate.
Qed.

(** C8. [rmsd] is symmetric in its two chains whenever they have the same
    length: both calls return the same number, or raise the same
    exception. *)
Theorem rmsd_symmetric :
  forall (s : structure) (chain_a chain_b : list Z),
    List.length chain_a = List.length chain_b ->
    rmsd chain_a chain_b s = rmsd chain_b chain_a s.
Proof.
  intros s a b Hlen. unfold rmsd, len.
  rewrite rmsd_loop_sym, Hlen. reflexivity.
Qed.

Lemma rmsd_symmetric_witness :
  rmsd [0%Z] [1%Z] two_atom_structure = rmsd [1%Z] [0%Z] two_atom_structure.
Proof. apply rmsd_symmetric. reflexivity. Defined.

(** C10. With an empty first chain the loop does not run, [summ] is still
    the integer 0 and [summ/N] divides by zero: [rmsd] raises
    [ZeroDivisionError] whatever the structure and the second chain. *)
Theorem rmsd_empty_first_chain :
  forall (s : structure) (chain_2 : list Z),
    rmsd [] chain_2 s = Raise ZeroDivisionError.
Proof. intros s c2. reflexivity. Qed.

(** ** The pipeline *)

Lemma eff_bind_ok {W A B : Type} (m : M W A) (k : A -> M W B)
    (w w' : W) (b : B) :
  Eff.bind m k w = (Ok b, w') ->
  exists a w1, m w = (Ok a, w1) /\ k a w1 = (Ok b, w').
Proof.
  unfold Eff.bind. destruct (m w) as [[a|e] w1]; [|discriminate].
  intros Hk. now exists a, w1.
Qed.

(** Appending one chain per index builds the list of all chains. *)
Lemma chain_list_map (struct : structure) (idxs : list Z) :
  forall acc,
    fold_left (fun chain_list i => chain_list ++ [chain_atoms struct i]) idxs acc
    = acc ++ map (chain_atoms struct) idxs.
Proof.
  induction idxs as [|i rest IH]; intros acc; cbn [fold_left map].
  - now rewrite app_nil_r.
  - rewrite IH, <- app_assoc. reflexivity.
Qed.


(** The last loop appends one value per index to what it was given. *)
Lemma rmsd_list_loop_ok (chain_list : list (list Z)) (struct : structure)
    (idxs : list Z) :
  forall acc l,
    rmsd_list_loop chain_list struct idxs acc = Ok l ->
    exists l', l = acc ++ l' /\ List.length l' = List.length idxs.
Proof.
  induction idxs as [|i rest IH]; intros acc l.
  - cbn. intros [= <-]. exists []. now rewrite app_nil_r.
  - cbn [rmsd_list_loop].
    destruct (getitem chain_list 0) as [c0|]; [|discriminate].
    destruct (getitem chain_list (2 * i)) as [ci|]; [|discriminate].
    cbn [Res.bind].
    destruct (rmsd c0 ci struct) as [r|]; [|discriminate]. cbn [Res.bind].
    intros Hrest. apply IH in Hrest. destruct Hrest as (l' & -> & Hlen).
    exists (r :: l'). rewrite <- app_assoc. split; [reflexivity|].
    cbn [List.length]. now rewrite Hlen.
Qed.


Section EngineFacts.
Variable world : Type.
Variable pymol : pymol_cmd -> M world unit.
Variable md_load : string -> M world structure.

(** A normal return of [rmsd_list_from_dimer] is the result of its last
    loop on some loaded structure. *)
Lemma rmsd_list_from_dimer_ok (filepath filename : string) (list_len : Z)
    (temp_file : string) (w w' : world) (l : list R) :
  rmsd_list_from_dimer pymol md_load filepath filename list_len temp_file w
    = (Ok l, w') ->
  exists struct,
    rmsd_list_loop (map (chain_atoms struct) (range 0 (2 * list_len)))
                   struct (range 0 list_len) [] = Ok l.
Proof.
  unfold rmsd_list_from_dimer. intros Hrun.
  do 7 (apply eff_bind_ok in Hrun; destruct Hrun as (_ & ? & _ & Hrun)).
  apply eff_bind_ok in Hrun. destruct Hrun as (struct & w1 & _ & Hrun).
  unfold Eff.lift in Hrun. rewrite chain_list_map in Hrun.
  exists struct. cbn [app] in Hrun. congruence.
Qed.

(** [predict_stoichiometry] in terms of the two functions it calls. *)
Lemma predict_stoichiometry_eq (filepath filename : string)
    (max_expected_stoichiometry : Z) (w : world) :
  predict_stoichiometry pymol md_load filepath filename
                        max_expected_stoichiometry w
  = match rmsd_list_from_dimer pymol md_load filepath filename
            max_expected_stoichiometry default_temp_file w with
    | (Ok rmsd_list, w') =>
        (match min_rmsd rmsd_list with
         | Ok m => py_sub m 1
         | Raise e => Raise e
         end, w')
    | (Raise e, w') => (Raise e, w')
    end.
Proof.
  unfold predict_stoichiometry, Eff.bind, Eff.lift.
  destruct (rmsd_list_from_dimer _ _ _ _ _ _ w) as [[l|e] w'];
    [|reflexivity].
  destruct (min_rmsd l); reflexivity.
Qed.
End EngineFacts.

(** ** The recording engine *)

Lemma recorder_for_each (f : Z -> pymol_cmd) (idxs : list Z) :
  forall w : Recorder.world,
    Eff.for_each idxs (fun i => Recorder.pymol (f i)) w
    = (Ok tt, w ++ map f idxs).
Proof.
  induction idxs as [|i rest IH]; intros w; cbn [Eff.for_each map].
  - unfold Eff.ret. now rewrite app_nil_r.
  - unfold Eff.bind, Recorder.pymol at 1. rewrite IH, <- app_assoc. reflexivity.
Qed.

(** On the recording engine every command is issued, and the value
    returned is that of the last loop on the loaded structure. *)
Lemma recorder_run (loaded : res structure) (filepath filename : string)
    (list_len : Z) (temp_file : string) :
  rmsd_list_from_dimer Recorder.pymol (Recorder.md_load loaded)
                       filepath filename list_len temp_file []
  = (match loaded with
     | Ok struct =>
         rmsd_list_loop (map (chain_atoms struct) (range 0 (2 * list_len)))
                        struct (range 0 list_len) []
     | Raise e => Raise e
     end,
     script filepath filename list_len temp_file).
Proof.
  unfold rmsd_list_from_dimer, script.
  unfold Eff.bind at 1. unfold Recorder.pymol at 1.
  unfold Eff.bind at 1. unfold Recorder.pymol at 1.
  unfold Eff.bind at 1. rewrite recorder_for_each.
  unfold Eff.bind at 1. rewrite recorder_for_each.
  unfold Eff.bind at 1. rewrite recorder_for_each.
  unfold Eff.bind at 1. unfold Recorder.pymol at 1.
  unfold Eff.bind at 1. unfold Recorder.pymol at 1.
  unfold Eff.bind, Recorder.md_load, Eff.lift.
  cbn [app]. rewrite <- !app_assoc. cbn [app].
  destruct loaded as [struct|e]; [|reflexivity].
  now rewrite chain_list_map.
Qed.

Lemma deleted_app (w1 w2 : Recorder.world) :
  Recorder.deleted (w1 ++ w2) = Recorder.deleted w1 ++ Recorder.deleted w2.
Proof. apply flat_map_app. Qed.

Lemma copies_app (w1 w2 : Recorder.world) :
  Recorder.copies (w1 ++ w2) = Recorder.copies w1 ++ Recorder.copies w2.
Proof. apply flat_map_app. Qed.

Lemma deleted_map_delete (f : Z -> string) (idxs : list Z) :
  Recorder.deleted (map (fun i => Delete (f i)) idxs) = map f idxs.
Proof.
  induction idxs as [|i rest IH]; [reflexivity|].
  cbn [map]. change (Recorder.deleted (Delete (f i) :: ?l))
    with (f i :: Recorder.deleted l). now rewrite <- IH.
Qed.

Lemma copies_map_copy (f g : Z -> string) (idxs : list Z) :
  Recorder.copies (map (fun i => Copy (f i) (g i)) idxs) = map f idxs.
Proof.
  induction idxs as [|i rest IH]; [reflexivity|].
  cbn [map]. unfold Recorder.copies in *. cbn [flat_map app]. now rewrite IH.
Qed.

Lemma deleted_none (w : Recorder.world) :
  Forall (fun c => match c with Delete _ => False | _ => True end) w ->
  Recorder.deleted w = [].
Proof.
  induction 1 as [|c w Hc _ IH]; [reflexivity|].
  unfold Recorder.deleted in *. cbn [flat_map]. rewrite IH.
  destruct c; try reflexivity. contradiction.
Qed.

Lemma copies_none (w : Recorder.world) :
  Forall (fun c => match c with Copy _ _ => False | _ => True end) w ->
  Recorder.copies w = [].
Proof.
  induction 1 as [|c w Hc _ IH]; [reflexivity|].
  unfold Recorder.copies in *. cbn [flat_map]. rewrite IH.
  destruct c; try reflexivity. contradiction.
Qed.

Lemma Forall_map_cmd (P : pymol_cmd -> Prop) (f : Z -> pymol_cmd)
    (idxs : list Z) :
  (forall i, P (f i)) -> Forall P (map f idxs).
Proof. intros Hf. apply Forall_forall. intros c Hc.
  apply in_map_iff in Hc. destruct Hc as (i & <- & _). apply Hf.
Qed.

(** The names deleted and the copies made by one call. *)
Lemma script_deleted (filepath filename : string) (list_len : Z)
    (temp_file : string) :
  Recorder.deleted (script filepath filename list_len temp_file)
  = map (fun i => chain_A_of_copy (i + 1)) (range 0 list_len).
Proof.
  unfold script. rewrite !deleted_app, deleted_map_delete.
  rewrite (@deleted_none (map _ (range 0 list_len)))
    by (apply Forall_map_cmd; intros; exact I).
  rewrite (@deleted_none (map _ (range 0 (list_len - 1))))
    by (apply Forall_map_cmd; intros; exact I).
  cbn. now rewrite app_nil_r.
Qed.

Lemma script_copies (filepath filename : string) (list_len : Z)
    (temp_file : string) :
  Recorder.copies (script filepath filename list_len temp_file)
  = map copy_name (range 0 list_len).
Proof.
  unfold script. rewrite !copies_app, copies_map_copy.
  rewrite (@copies_none (map _ (range 0 (list_len - 1))))
    by (apply Forall_map_cmd; intros; exact I).
  rewrite (@copies_none (map _ (range 0 list_len)))
    by (apply Forall_map_cmd; intros; exact I).
  cbn. now rewrite app_nil_r.
Qed.

(** [str] is one to one: the decimal numeral of an integer reads back as
    that integer. *)
Lemma str_inj (a b : Z) : str a = str b -> a = b.
Proof.
  unfold str. intros Heq.
  assert (Hread : forall n,
             NilZero.int_of_string (NilZero.string_of_int (Z.to_int n))
             = Some (Z.to_int n)).
  { intros n. apply NilZero.isi; destruct n; cbn; try discriminate;
      intros [= Hnil]; now apply DecimalPos.Unsigned.to_uint_nonnil in Hnil. }
  pose proof (Hread a) as Ha. rewrite Heq, Hread in Ha.
  injection Ha as Ha.
  rewrite <- (DecimalZ.of_to a), <- (DecimalZ.of_to b). now rewrite Ha.
Qed.

(** For one copy or more, the delete loop names copy [list_len], which
    [cmd.copy] never made. *)
Lemma delete_loop_overruns (filepath filename : string) (list_len : Z)
    (temp_file : string) :
  (1 <= list_len)%Z ->
  In (chain_A_of_copy list_len)
     (Recorder.deleted (script filepath filename list_len temp_file)) /\
  ~ In (copy_name list_len)
       (Recorder.copies (script filepath filename list_len temp_file)).
Proof.
  intros Hpos. rewrite script_deleted, script_copies. split.
  - apply in_map_iff. exists (list_len - 1)%Z. split.
    + f_equal. lia.
    + apply range_In. lia.
  - intros Hin. apply in_map_iff in Hin. destruct Hin as (i & Hname & Hi).
    unfold copy_name in Hname. injection Hname as Hstr.
    apply str_inj in Hstr. subst i.
    pose proof (range_Forall 0 list_len) as Hall.
    rewrite Forall_forall in Hall. apply Hall in Hi. lia.
Qed.

(** C6, what the code does.  On the recording engine, whatever the loader
    returns, one call with [list_len] copies deletes chain A of the copies
    numbered 1 to [list_len] and has made the copies numbered 0 to
    [list_len - 1]: copy 0 keeps its chain A, and the last deletion names
    a copy that does not exist.  With one copy, [c0] is made and
    [/c1//A] is deleted. *)
Theorem delete_loop_targets :
  forall (loaded : res structure) (filepath filename : string)
         (list_len : Z) (temp_file : string),
    let log := snd (rmsd_list_from_dimer Recorder.pymol
                      (Recorder.md_load loaded)
                      filepath filename list_len temp_file []) in
    Recorder.deleted log = map chain_A_of_copy (range 1 (list_len + 1)) /\
    Recorder.copies log = map copy_name (range 0 list_len) /\
    Recorder.deleted
      (snd (rmsd_list_from_dimer Recorder.pymol (Recorder.md_load loaded)
              "./" "dimer.pdb" 1 default_temp_file []))
      = ["/c1//A"%string] /\
    Recorder.copies
      (snd (rmsd_list_from_dimer Recorder.pymol (Recorder.md_load loaded)
              "./" "dimer.pdb" 1 default_temp_file []))
      = ["c0"%string].
Proof.
  intros loaded fp fn n tmp log. subst log.
  rewrite !recorder_run. cbn [snd].
  rewrite !script_deleted, !script_copies.
  split; [|split; [reflexivity | split; reflexivity]].
  unfold range. rewrite !map_map.
  replace (n + 1 - 1)%Z with (n - 0)%Z by lia.
  apply map_ext. intros k. f_equal. lia.
Qed.

(** ** The walk example *)

Lemma walk_rmsd (k : Z) (x : R) :
  (0 <= k < 4)%Z ->
  nth (Z.to_nat k) walk_frame origin = on_x_axis x ->
  (0 <= x)%R ->
  rmsd [0%Z] [k] walk_structure = Ok (x * 10)%R.
Proof.
  intros Hk Hnth Hx.
  rewrite (@rmsd_valid walk_structure walk_frame [0%Z] [k]);
    [| reflexivity | reflexivity | cbn; lia
     | repeat constructor; cbn; lia | repeat constructor; cbn; lia].
  unfold rmsd_spec, sum_sq_dist.
  cbn [combine map fold_right fst snd List.length INR].
  rewrite Hnth. change (nth (Z.to_nat 0) walk_frame origin) with (on_x_axis 0).
  unfold sq_dist, on_x_axis. cbn [px py pz].
  replace (((0 - x) ^ 2 + (0 - 0) ^ 2 + (0 - 0) ^ 2 + 0) / 1)%R
    with (x * x)%R by (field).
  now rewrite sqrt_square.
Qed.

Lemma walk_run :
  rmsd_list_from_dimer Recorder.pymol (Recorder.md_load (Ok walk_structure))
                       "./" "dimer.pdb" 4 default_temp_file []
  = (Ok (map IZR [0; 20; 10; 30]%Z), four_copies_log).
Proof.
  rewrite recorder_run. f_equal.
  replace (map (chain_atoms walk_structure) (range 0 (2 * 4)))
    with [[0%Z]; []; [1%Z]; []; [2%Z]; []; [3%Z]; @nil Z] by reflexivity.
  change (range 0 4) with [0; 1; 2; 3]%Z.
  cbn [rmsd_list_loop].
  repeat match goal with
         | |- context [getitem ?l ?k] =>
             let v := eval vm_compute in (getitem l k) in
             change (getitem l k) with v
         end.
  cbn [Res.bind].
  rewrite (@walk_rmsd 0 0) by (try reflexivity; lia || lra). cbn [Res.bind].
  rewrite (@walk_rmsd 1 2) by (try reflexivity; lia || lra). cbn [Res.bind].
  rewrite (@walk_rmsd 2 1) by (try reflexivity; lia || lra). cbn [Res.bind].
  rewrite (@walk_rmsd 3 3) by (try reflexivity; lia || lra). cbn [Res.bind].
  cbn [app map]. repeat f_equal; lra.
Qed.

Lemma min_rmsd_walk : min_rmsd (map IZR [0; 20; 10; 30]%Z) = Ok (Some 2%Z).
Proof. rewrite (min_rmsd_map IZR py_lt_IZR). reflexivity. Qed.

(** ** The claims about the pipeline *)




(** C2. When [rmsd_list_from_dimer] returns a list, [min_rmsd] returns
    on it either an index or [None]; [predict_stoichiometry] returns that
    index minus 1 in the first case and raises [TypeError], returning no
    integer, in the second. *)
Theorem predict_stoichiometry_contract :
  forall (world : Type) (pymol : pymol_cmd -> M world unit)
         (md_load : string -> M world structure)
         (filepath filename : string) (max_expected_stoichiometry : Z)
         (w w' : world) (rmsd_list : list R),
    rmsd_list_from_dimer pymol md_load filepath filename
                         max_expected_stoichiometry default_temp_file w
      = (Ok rmsd_list, w') ->
    (exists m, min_rmsd rmsd_list = Ok m) /\
    (forall i, min_rmsd rmsd_list = Ok (Some i) ->
               predict_stoichiometry pymol md_load filepath filename
                                     max_expected_stoichiometry w
               = (Ok (i - 1)%Z, w')) /\
    (min_rmsd rmsd_list = Ok None ->
     predict_stoichiometry pymol md_load filepath filename
                           max_expected_stoichiometry w
     = (Raise TypeError, w')).
Proof.
  intros world pymol md_load fp fn n w w' l Hrun.
  rewrite predict_stoichiometry_eq, Hrun.
  split; [|split].
  - destruct (min_rmsd_cases l) as [[Hnone _] | (i & Hsome & _)]; eauto.
  - intros i ->. reflexivity.
  - intros ->. reflexivity.
Qed.

(** On the walk the curve is 0, 20, 10, 30: the minimum is at index 2 and
    the prediction is 1. *)
Lemma predict_stoichiometry_contract_witness :
  predict_stoichiometry Recorder.pymol (Recorder.md_load (Ok walk_structure))
                        "./" "dimer.pdb" 4 []
  = (Ok 1%Z, four_copies_log).
Proof.
  apply (proj1 (proj2 (@predict_stoichiometry_contract
                         Recorder.world Recorder.pymol
                         (Recorder.md_load (Ok walk_structure))
                         "./" "dimer.pdb" 4%Z [] four_copies_log
                         (map IZR [0; 20; 10; 30]%Z) walk_run)) 2%Z).
  exact min_rmsd_walk.
Defined.

(** C9. An index returned by [min_rmsd] lies between 2 and [len - 2]; a
    list of at most 3 numbers therefore yields [None], even [3, 1, 3]
    whose middle entry is a strict local minimum at index 1; and a normal
    return of [predict_stoichiometry] is at least 1. *)
Theorem min_rmsd_index_bounds :
  (forall (rmsd_list : list R) (i : Z),
      min_rmsd rmsd_list = Ok (Some i) -> (2 <= i <= len rmsd_list - 2)%Z)
  /\
  (forall rmsd_list : list R,
      (len rmsd_list <= 3)%Z -> min_rmsd rmsd_list = Ok None)
  /\
  (strict_local_min [3; 1; 3]%R 1 = true /\
   min_rmsd [3; 1; 3]%R = Ok None)
  /\
  (forall (world : Type) (pymol : pymol_cmd -> M world unit)
          (md_load : string -> M world structure)
          (filepath filename : string) (max_expected_stoichiometry : Z)
          (w : world) (n : Z),
      fst (predict_stoichiometry pymol md_load filepath filename
                                 max_expected_stoichiometry w) = Ok n ->
      (1 <= n)%Z).
Proof.
  split; [|split; [|split]].
  - intros l i Hret.
    destruct (min_rmsd_cases l) as [[Hnone _] | (i' & Hsome & Hi & _)];
      congruence.
  - intros l Hshort.
    destruct (min_rmsd_cases l) as [[Hnone _] | (i & _ & Hi & _)];
      [exact Hnone | lia].
  - change [3; 1; 3]%R with (map IZR [3; 1; 3]%Z).
    rewrite (strict_local_min_map IZR py_lt_IZR), (min_rmsd_map IZR py_lt_IZR).
    split; reflexivity.
  - intros world pymol md_load fp fn mes w n.
    rewrite predict_stoichiometry_eq.
    destruct (rmsd_list_from_dimer _ _ _ _ _ _ w) as [[l|e] w'];
      [|discriminate].
    cbn [fst].
    destruct (min_rmsd_cases l) as [[-> _] | (i & -> & Hi & _)];
      cbn [py_sub]; [discriminate|].
    intros [= <-]. lia.
Qed.

(** On the curve 0, 20, 10, 30 the index returned is 2, within bounds; the
    three-element list yields [None]; the walk's prediction, 1, is at
    least 1. *)
Lemma min_rmsd_index_bounds_witness :
  (2 <= 2 <= len (map IZR [0; 20; 10; 30]%Z) - 2)%Z /\
  min_rmsd [3; 1; 3]%R = Ok None /\
  (1 <= 1)%Z.
Proof.
  destruct min_rmsd_index_bounds as (Hbounds & Hshort & _ & Hpredict).
  split; [|split].
  - apply (Hbounds (map IZR [0; 20; 10; 30]%Z) 2%Z). exact min_rmsd_walk.
  - apply (Hshort [3; 1; 3]%R). cbn. lia.
  - apply (Hpredict Recorder.world Recorder.pymol
             (Recorder.md_load (Ok walk_structure))
             "./"%string "dimer.pdb"%string 4%Z [] 1%Z).
    rewrite predict_stoichiometry_eq, walk_run, min_rmsd_walk. reflexivity.
Defined.

(** * Further properties of the code *)

(** ** [rmsd]: sign, exceptions, identical chains *)

(** The running sum never decreases. *)
Lemma rmsd_loop_ge (s : structure) (c1 c2 : list Z) (idxs : list Z) :
  forall summ r, rmsd_loop s c1 c2 idxs summ = Ok r -> (summ <= r)%R.
Proof.
  induction idxs as [|i rest IH]; intros summ r.
  - cbn. intros [= <-]. lra.
  - rewrite rmsd_loop_step.
    destruct (atom_point s c1 i) as [p|]; [|discriminate].
    destruct (atom_point s c2 i) as [q|]; [|discriminate].
    intros Hr. apply IH in Hr. pose proof (sq_dist_nonneg p q). lra.
Qed.

(** What a normal return of [rmsd] is made of. *)
Lemma rmsd_ok_inv (s : structure) (c1 c2 : list Z) (r : R) :
  rmsd c1 c2 s = Ok r ->
  exists summ,
    rmsd_loop s c1 c2 (range 0 (len c1)) 0%R = Ok summ /\
    (0 <= summ)%R /\ c1 <> [] /\
    r = (sqrt (summ / INR (List.length c1)) * 10)%R.
Proof.
  intros Hr.
  destruct (rmsd_loop s c1 c2 (range 0 (len c1)) 0%R) as [summ|e] eqn:Hloop.
  - assert (Hpos : (0 <= summ)%R) by (eapply rmsd_loop_ge; eassumption).
    assert (Hne : c1 <> []).
    { intros ->.
      assert (Hdiv : rmsd [] c2 s = Raise ZeroDivisionError) by reflexivity.
      congruence. }
    exists summ. repeat split; auto.
    rewrite (@rmsd_of_sum s c1 c2 summ Hne Hpos Hloop) in Hr. congruence.
  - unfold rmsd in Hr. rewrite Hloop in Hr. discriminate.
Qed.



(** X2. Whatever [rmsd] returns is not negative. *)
Theorem rmsd_nonneg :
  forall (s : structure) (chain_1 chain_2 : list Z) (r : R),
    rmsd chain_1 chain_2 s = Ok r -> (0 <= r)%R.
Proof.
  intros s c1 c2 r Hr. apply rmsd_ok_inv in Hr.
  destruct Hr as (summ & _ & _ & _ & ->).
  pose proof (sqrt_pos (summ / INR (List.length c1))). lra.
Qed.

Lemma rmsd_nonneg_witness : (0 <= rmsd_spec two_atoms [0%Z] [1%Z])%R.
Proof.
  apply (@rmsd_nonneg two_atom_structure [0%Z] [1%Z]).
  apply (@rmsd_valid two_atom_structure two_atoms [0%Z] [1%Z]).
  - reflexivity.
  - reflexivity.
  - cbn. lia.
  - exact valid_two_atoms_0.
  - exact valid_two_atoms_1.
Defined.

(** X3. [rmsd] raises [ZeroDivisionError] exactly on an empty first
    chain: it raises it whenever the first chain is empty, and on a
    non-empty one the only exception it can raise is [IndexError];
    [math.sqrt] is never given a negative number. *)
Theorem rmsd_exceptions :
  forall (s : structure) (chain_1 chain_2 : list Z),
    (chain_1 = [] -> rmsd chain_1 chain_2 s = Raise ZeroDivisionError) /\
    (chain_1 <> [] ->
     forall e, rmsd chain_1 chain_2 s = Raise e -> e = IndexError).
Proof.
  intros s c1 c2. split.
  - intros ->. reflexivity.
  - intros Hne e Hr.
    destruct (rmsd_loop s c1 c2 (range 0 (len c1)) 0%R)
      as [summ|e'] eqn:Hloop.
    + assert (Hpos : (0 <= summ)%R) by (eapply rmsd_loop_ge; eassumption).
      rewrite (@rmsd_of_sum s c1 c2 summ Hne Hpos Hloop) in Hr.
      discriminate.
    + unfold rmsd in Hr. rewrite Hloop in Hr. cbn [Res.bind] in Hr.
      apply rmsd_loop_raise in Hloop. congruence.
Qed.

(** An empty first chain against one atom raises [ZeroDivisionError]; two
    atoms against one raise [IndexError] and nothing else. *)
Lemma rmsd_exceptions_witness :
  rmsd [] [1%Z] two_atom_structure = Raise ZeroDivisionError /\
  IndexError = IndexError.
Proof.
  split.
  - apply (proj1 (rmsd_exceptions two_atom_structure [] [1%Z])).
    reflexivity.
  - apply (proj2 (rmsd_exceptions two_atom_structure [0%Z; 1%Z] [1%Z]));
      [discriminate|].
    apply rmsd_longer_first. cbn. lia.
Defined.

(** ** [min_rmsd]: monotone curves, order-preserving maps, longer curves *)

(** X7. On a curve that never decreases, or never increases, from one
    entry to the next, [min_rmsd] returns [None]. *)
Theorem min_rmsd_monotone_none :
  forall rmsd_list : list R,
    non_decreasing rmsd_list \/ non_increasing rmsd_list ->
    min_rmsd rmsd_list = Ok None.
Proof.
  intros l Hmono.
  destruct (min_rmsd_cases l) as [[Hnone _] | (i & _ & Hi & Hmi & _)];
    [exact Hnone|].
  exfalso. unfold strict_local_min in Hmi.
  apply andb_prop in Hmi. destruct Hmi as [_ Hmi].
  destruct (nth_error l (Z.to_nat (i - 1))) as [p|] eqn:Hp; [|discriminate].
  destruct (nth_error l (Z.to_nat i)) as [x|] eqn:Hx; [|discriminate].
  destruct (nth_error l (Z.to_nat (i + 1))) as [n|] eqn:Hn; [|discriminate].
  apply andb_prop in Hmi. destruct Hmi as [Hxp Hxn].
  apply py_lt_R_true in Hxp, Hxn.
  replace (Z.to_nat i) with (S (Z.to_nat (i - 1))) in Hx by lia.
  replace (Z.to_nat (i + 1)) with (S (S (Z.to_nat (i - 1)))) in Hn by lia.
  destruct Hmono as [Hup | Hdown].
  - pose proof (Hup _ _ _ Hp Hx). lra.
  - pose proof (Hdown _ _ _ Hx Hn). lra.
Qed.

Lemma non_decreasing_example : non_decreasing [0; 10; 20; 30; 30]%R.
Proof.
  intros k x y Hx Hy.
  do 5 (destruct k as [|k];
        [cbn in Hx, Hy; try discriminate;
         injection Hx as <-; injection Hy as <-; lra|]).
  destruct k; discriminate.
Qed.

Lemma min_rmsd_monotone_none_witness :
  min_rmsd [0; 10; 20; 30; 30]%R = Ok None.
Proof.
  apply min_rmsd_monotone_none. left. exact non_decreasing_example.
Defined.

(** X8. [min_rmsd] only looks at how entries compare: applying to every
    entry a function that keeps the strict order, such as a conversion of
    units by a positive factor, does not change what it returns. *)
Theorem min_rmsd_order_preserving :
  forall (f : R -> R) (rmsd_list : list R),
    (forall a b : R, (f a < f b)%R <-> (a < b)%R) ->
    min_rmsd (map f rmsd_list) = min_rmsd rmsd_list.
Proof.
  intros f l Hf. apply min_rmsd_map. intros a b.
  destruct (py_lt a b) eqn:E.
  - apply py_lt_R_true, (proj2 (Hf a b)). now apply py_lt_R_true.
  - apply py_lt_R_false. apply py_lt_R_false in E.
    destruct (Rle_lt_dec (f b) (f a)) as [|Hlt]; [assumption|].
    apply (proj1 (Hf a b)) in Hlt. lra.
Qed.

Lemma min_rmsd_order_preserving_witness :
  min_rmsd (map (fun x => x * 10)%R [5; 4; 3; 2; 3; 4; 5]%R)
  = min_rmsd [5; 4; 3; 2; 3; 4; 5]%R.
Proof.
  apply min_rmsd_order_preserving. intros a b. lra.
Defined.

Section MinRmsdLonger.
Context {A : Type} `{PyLt A}.

(** Entries added at the end do not change the test at an index whose
    right neighbour was already in the list. *)
Lemma strict_local_min_app (l l' : list A) (j : Z) :
  (j + 1 < len l)%Z ->
  strict_local_min (l ++ l') j = strict_local_min l j.
Proof.
  intros Hj. unfold strict_local_min.
  destruct (1 <=? j)%Z eqn:Hlo; [|reflexivity]. cbn [andb].
  unfold len in Hj.
  rewrite !nth_error_app1 by lia. reflexivity.
Qed.

(** The first entry is not read at any index from 2 on. *)
Lemma strict_local_min_head (a b : A) (l : list A) (j : Z) :
  (2 <= j)%Z ->
  strict_local_min (a :: l) j = strict_local_min (b :: l) j.
Proof.
  intros Hj. unfold strict_local_min.
  replace (Z.to_nat (j - 1)) with (S (Z.to_nat (j - 2))) by lia.
  replace (Z.to_nat j) with (S (S (Z.to_nat (j - 2)))) by lia.
  replace (Z.to_nat (j + 1)) with (S (S (S (Z.to_nat (j - 2))))) by lia.
  reflexivity.
Qed.

(** Two lists of the same length that agree on [strict_local_min] from
    index 2 on get the same answer. *)
Lemma min_rmsd_ext (l1 l2 : list A) :
  len l1 = len l2 ->
  (forall j, (2 <= j <= len l1 - 2)%Z ->
             strict_local_min l1 j = strict_local_min l2 j) ->
  min_rmsd l1 = min_rmsd l2.
Proof.
  intros Hlen Hsame.
  destruct (min_rmsd_cases l1)
    as [[-> Hall1] | (i1 & -> & Hi1 & Hm1 & Hb1)];
    destruct (min_rmsd_cases l2)
    as [[-> Hall2] | (i2 & -> & Hi2 & Hm2 & Hb2)].
  - reflexivity.
  - rewrite <- Hsame, Hall1 in Hm2 by lia. discriminate.
  - rewrite Hsame, Hall2 in Hm1 by lia. discriminate.
  - destruct (Z.lt_trichotomy i1 i2) as [Hlt | [-> | Hgt]].
    + rewrite Hsame, Hb2 in Hm1 by lia. discriminate.
    + reflexivity.
    + rewrite <- Hsame, Hb1 in Hm2 by lia. discriminate.
Qed.

(** X9. Once [min_rmsd] has found an index on a curve, it finds the same
    index on any longer curve that starts with it. *)
Theorem min_rmsd_longer_curve :
  forall (rmsd_list more : list A) (i : Z),
    min_rmsd rmsd_list = Ok (Some i) ->
    min_rmsd (rmsd_list ++ more) = Ok (Some i).
Proof.
  intros l l' i Hret.
  destruct (min_rmsd_cases l)
    as [[Hnone _] | (i0 & Hsome & Hi & Hmi & Hbefore)]; [congruence|].
  assert (i0 = i) by congruence. subst i0.
  assert (Hlen : (len l <= len (l ++ l'))%Z)
    by (unfold len; rewrite length_app; lia).
  destruct (min_rmsd_cases (l ++ l'))
    as [[_ Hall] | (i' & -> & Hi' & Hmi' & Hbefore')].
  - rewrite <- (@strict_local_min_app l l' i), Hall in Hmi by lia.
    discriminate.
  - destruct (Z.lt_trichotomy i' i) as [Hlt | [-> | Hgt]].
    + rewrite strict_local_min_app, Hbefore in Hmi' by lia. discriminate.
    + reflexivity.
    + rewrite <- (@strict_local_min_app l l' i), Hbefore' in Hmi by lia.
      discriminate.
Qed.

(** X10. The entry at index 0 is never read: replacing it leaves the
    answer unchanged. *)
Theorem min_rmsd_ignores_index_0 :
  forall (a b : A) (rmsd_list : list A),
    min_rmsd (a :: rmsd_list) = min_rmsd (b :: rmsd_list).
Proof.
  intros a b l. apply min_rmsd_ext; [reflexivity|].
  intros j Hj. apply strict_local_min_head. lia.
Qed.
End MinRmsdLonger.

Lemma min_rmsd_longer_curve_witness :
  min_rmsd ([5; 4; 3; 2; 3; 4; 5] ++ [1; 0])%Z = Ok (Some 3%Z).
Proof. apply min_rmsd_longer_curve. reflexivity. Defined.

(** ** [rmsd_list_from_dimer]: what the list holds *)

Lemma nth_error_range (lo hi x : Z) (k : nat) :
  nth_error (range lo hi) k = Some x ->
  x = (lo + Z.of_nat k)%Z /\ (k < Z.to_nat (hi - lo))%nat.
Proof.
  unfold range. rewrite nth_error_map.
  destruct (nth_error (seq 0 (Z.to_nat (hi - lo))) k) as [j|] eqn:Hj;
    [|discriminate].
  cbn [option_map]. intros [= <-].
  assert (Hk : (k < List.length (seq 0 (Z.to_nat (hi - lo))))%nat)
    by (apply nth_error_Some; congruence).
  rewrite length_seq in Hk.
  rewrite nth_error_nth' with (d := 0%nat) in Hj by (rewrite length_seq; lia).
  rewrite seq_nth in Hj by lia. injection Hj as <-. split; [lia | exact Hk].
Qed.

(** Reading the list of chains at a subscript that is not negative gives
    the chain of that number. *)
Lemma getitem_chain_list (struct : structure) (m k : Z) (c : list Z) :
  (0 <= k)%Z ->
  getitem (map (chain_atoms struct) (range 0 m)) k = Ok c ->
  c = chain_atoms struct k.
Proof.
  intros Hk. rewrite getitem_nonneg by exact Hk. rewrite nth_error_map.
  destruct (nth_error (range 0 m) (Z.to_nat k)) as [x|] eqn:Hx;
    [|discriminate].
  cbn [option_map]. intros [= <-].
  apply nth_error_range in Hx. destruct Hx as [-> _]. f_equal. lia.
Qed.

(** Every value appended by the last loop is an [rmsd] between chain 0
    and the chain numbered twice the index. *)
Lemma rmsd_list_loop_values (chain_list : list (list Z)) (struct : structure)
    (idxs : list Z) :
  forall acc l,
    rmsd_list_loop chain_list struct idxs acc = Ok l ->
    exists l',
      l = acc ++ l' /\
      Forall2 (fun i r =>
                 exists c0 ci,
                   getitem chain_list 0 = Ok c0 /\
                   getitem chain_list (2 * i) = Ok ci /\
                   rmsd c0 ci struct = Ok r)
              idxs l'.
Proof.
  induction idxs as [|i rest IH]; intros acc l.
  - cbn. intros [= <-]. exists []. rewrite app_nil_r. split; constructor.
  - cbn [rmsd_list_loop].
    destruct (getitem chain_list 0) as [c0|] eqn:E0; [|discriminate].
    destruct (getitem chain_list (2 * i)) as [ci|] eqn:Ei; [|discriminate].
    cbn [Res.bind].
    destruct (rmsd c0 ci struct) as [r|] eqn:Er; [|discriminate].
    cbn [Res.bind]. intros Hrest. apply IH in Hrest.
    destruct Hrest as (l' & -> & Hall).
    exists (r :: l'). rewrite <- app_assoc. split; [reflexivity|].
    constructor; [|exact Hall]. now exists c0, ci.
Qed.

Lemma Forall2_range {B : Type} (P : Z -> B -> Prop) (n : nat) :
  forall (lo : Z) (l : list B),
    Forall2 P (range lo (lo + Z.of_nat n)) l ->
    forall i, (lo <= i < lo + Z.of_nat n)%Z ->
      exists b, nth_error l (Z.to_nat (i - lo)) = Some b /\ P i b.
Proof.
  induction n as [|n IH]; intros lo l Hall i Hi; [lia|].
  rewrite range_cons in Hall by lia.
  replace (lo + Z.of_nat (S n))%Z with (lo + 1 + Z.of_nat n)%Z in Hall by lia.
  inversion Hall as [|? b ? l' Hhd Htl]; subst.
  destruct (Z.eq_dec i lo) as [->|Hne].
  - exists b. rewrite Z.sub_diag. split; [reflexivity | exact Hhd].
  - destruct (IH (lo + 1)%Z l' Htl i) as (b' & Hnth & Hb'); [lia|].
    exists b'. split; [|exact Hb'].
    replace (Z.to_nat (i - lo)) with (S (Z.to_nat (i - (lo + 1)))) by lia.
    exact Hnth.
Qed.

Lemma Forall2_range_0 {B : Type} (P : Z -> B -> Prop) (n : Z) (l : list B) :
  Forall2 P (range 0 n) l ->
  forall i, (0 <= i < n)%Z ->
    exists b, nth_error l (Z.to_nat i) = Some b /\ P i b.
Proof.
  intros Hall i Hi.
  replace n with (0 + Z.of_nat (Z.to_nat n))%Z in Hall by lia.
  destruct (@Forall2_range B P (Z.to_nat n) 0%Z l Hall i) as (b & Hnth & Hb);
    [lia|].
  rewrite Z.sub_0_r in Hnth. now exists b.
Qed.

Section ListFacts.
Variable world : Type.
Variable pymol : pymol_cmd -> M world unit.
Variable md_load : string -> M world structure.

(** A normal return of [rmsd_list_from_dimer] is the result of its last
    loop on the structure [md.load] returned for the scratch file; nothing
    is done to the world after that load. *)
Lemma rmsd_list_from_dimer_loaded (filepath filename : string)
    (list_len : Z) (temp_file : string) (w w' : world) (l : list R) :
  rmsd_list_from_dimer pymol md_load filepath filename list_len temp_file w
    = (Ok l, w') ->
  exists w0 struct,
    md_load temp_file w0 = (Ok struct, w') /\
    rmsd_list_loop (map (chain_atoms struct) (range 0 (2 * list_len)))
                   struct (range 0 list_len) [] = Ok l.
Proof.
  unfold rmsd_list_from_dimer. intros Hrun.
  do 6 (apply eff_bind_ok in Hrun; destruct Hrun as (_ & ? & _ & Hrun)).
  apply eff_bind_ok in Hrun. destruct Hrun as (_ & w0 & _ & Hrun).
  apply eff_bind_ok in Hrun. destruct Hrun as (struct & w1 & Hload & Hrun).
  unfold Eff.lift in Hrun. rewrite chain_list_map in Hrun.
  cbn [app] in Hrun. injection Hrun as Hloop <-.
  now exists w0, struct.
Qed.

(** X11. When [rmsd_list_from_dimer] returns normally, [md.load] has
    returned, for the scratch file, a structure after which the world was
    left as it is, and for every [i] from 0 to [list_len - 1] the entry at
    index [i] of the list is the value of [rmsd] between chain 0 and chain
    [2*i] of that structure. *)
Theorem rmsd_list_from_dimer_entries :
  forall (filepath filename : string) (list_len : Z) (temp_file : string)
         (w w' : world) (rmsd_list : list R),
    rmsd_list_from_dimer pymol md_load filepath filename list_len temp_file w
      = (Ok rmsd_list, w') ->
    exists w0 struct,
      md_load temp_file w0 = (Ok struct, w') /\
      forall i, (0 <= i < list_len)%Z ->
        exists r,
          getitem rmsd_list i = Ok r /\
          rmsd (chain_atoms struct 0) (chain_atoms struct (2 * i)) struct
            = Ok r.
Proof.
  intros fp fn n tmp w w' l Hrun.
  apply rmsd_list_from_dimer_loaded in Hrun.
  destruct Hrun as (w0 & struct & Hload & Hloop).
  exists w0, struct. split; [exact Hload|]. intros i Hi.
  apply rmsd_list_loop_values in Hloop.
  destruct Hloop as (l' & -> & Hall). cbn [app].
  destruct (Forall2_range_0 Hall Hi)
    as (r & Hnth & c0 & ci & H0 & H2i & Hr).
  apply getitem_chain_list in H0; [|lia].
  apply getitem_chain_list in H2i; [|lia].
  subst c0 ci. exists r.
  rewrite getitem_nonneg, Hnth by lia.
  split; [reflexivity | exact Hr].
Qed.

(** X12. A normal return with [list_len >= 1] needs, in the structure
    [md.load] returned for the scratch file, a chain 0 that has atoms
    and, for every [i] below [list_len], a chain [2*i] with at least as
    many atoms as chain 0: when the loaded structure has fewer chains, or
    shorter ones, the call raises. *)
Theorem rmsd_list_from_dimer_needs_chains :
  forall (filepath filename : string) (list_len : Z) (temp_file : string)
         (w w' : world) (rmsd_list : list R),
    (1 <= list_len)%Z ->
    rmsd_list_from_dimer pymol md_load filepath filename list_len temp_file w
      = (Ok rmsd_list, w') ->
    exists w0 struct,
      md_load temp_file w0 = (Ok struct, w') /\
      chain_atoms struct 0 <> [] /\
      forall i, (0 <= i < list_len)%Z ->
        (List.length (chain_atoms struct 0)
         <= List.length (chain_atoms struct (2 * i)))%nat.
Proof.
  intros fp fn n tmp w w' l Hn Hrun.
  apply rmsd_list_from_dimer_loaded in Hrun.
  destruct Hrun as (w0 & struct & Hload & Hloop).
  exists w0, struct. split; [exact Hload|].
  apply rmsd_list_loop_values in Hloop.
  destruct Hloop as (l' & _ & Hall).
  assert (Hentry : forall i, (0 <= i < n)%Z ->
            exists r, rmsd (chain_atoms struct 0)
                           (chain_atoms struct (2 * i)) struct = Ok r).
  { intros i Hi.
    destruct (Forall2_range_0 Hall Hi)
      as (r & _ & c0 & ci & H0 & H2i & Hr).
    apply getitem_chain_list in H0; [|lia].
    apply getitem_chain_list in H2i; [|lia].
    subst c0 ci. now exists r. }
  split.
  - destruct (Hentry 0%Z) as (r & Hr); [lia|].
    apply rmsd_ok_inv in Hr. now destruct Hr as (_ & _ & _ & Hne & _).
  - intros i Hi. destruct (Hentry i Hi) as (r & Hr).
    destruct (Nat.le_gt_cases (List.length (chain_atoms struct 0))
                (List.length (chain_atoms struct (2 * i)))) as [|Hshort];
      [assumption|].
    apply rmsd_longer_first with (s := struct) in Hshort. congruence.
Qed.

(** X13. A normal return of [predict_stoichiometry] lies between 1 and
    [max_expected_stoichiometry - 3]: a ring of [n] protomers can only be
    reported when at least [n + 3] copies are asked for. *)
Theorem predict_stoichiometry_range :
  forall (filepath filename : string) (max_expected_stoichiometry : Z)
         (w : world) (n : Z),
    fst (predict_stoichiometry pymol md_load filepath filename
                               max_expected_stoichiometry w) = Ok n ->
    (1 <= n <= max_expected_stoichiometry - 3)%Z.
Proof.
  intros fp fn mes w n. rewrite predict_stoichiometry_eq.
  destruct (rmsd_list_from_dimer _ _ _ _ _ _ w) as [[l|e] w'] eqn:Hrun;
    [|discriminate].
  cbn [fst].
  apply rmsd_list_from_dimer_ok in Hrun. destruct Hrun as (struct & Hloop).
  apply rmsd_list_loop_ok in Hloop. destruct Hloop as (l' & -> & Hlen).
  cbn [app]. rewrite range_length in Hlen.
  destruct (min_rmsd_cases l') as [[-> _] | (i & -> & Hi & _)];
    cbn [py_sub]; [discriminate|].
  intros [= <-]. unfold len in Hi. lia.
Qed.
End ListFacts.

(** On the recording engine the loader returns the walk, and the four
    entries are the distances of chains 0, 2, 4 and 6 from chain 0. *)
Lemma rmsd_list_from_dimer_entries_witness :
  exists w0 struct,
    Recorder.md_load (Ok walk_structure) default_temp_file w0
      = (Ok struct, four_copies_log) /\
    forall i, (0 <= i < 4)%Z ->
      exists r,
        getitem (map IZR [0; 20; 10; 30]%Z) i = Ok r /\
        rmsd (chain_atoms struct 0) (chain_atoms struct (2 * i)) struct
          = Ok r.
Proof.
  exact (@rmsd_list_from_dimer_entries
           Recorder.world Recorder.pymol
           (Recorder.md_load (Ok walk_structure))
           "./" "dimer.pdb" 4%Z default_temp_file
           [] four_copies_log (map IZR [0; 20; 10; 30]%Z) walk_run).
Defined.

Lemma rmsd_list_from_dimer_needs_chains_witness :
  exists w0 struct,
    Recorder.md_load (Ok walk_structure) default_temp_file w0
      = (Ok struct, four_copies_log) /\
    chain_atoms struct 0 <> [] /\
    forall i, (0 <= i < 4)%Z ->
      (List.length (chain_atoms struct 0)
       <= List.length (chain_atoms struct (2 * i)))%nat.
Proof.
  apply (@rmsd_list_from_dimer_needs_chains
           Recorder.world Recorder.pymol
           (Recorder.md_load (Ok walk_structure))
           "./" "dimer.pdb" 4%Z default_temp_file
           [] four_copies_log (map IZR [0; 20; 10; 30]%Z)).
  - lia.
  - exact walk_run.
Defined.

Lemma predict_stoichiometry_range_witness : (1 <= 1 <= 4 - 3)%Z.
Proof.
  apply (@predict_stoichiometry_range
           Recorder.world Recorder.pymol
           (Recorder.md_load (Ok walk_structure))
           "./"%string "dimer.pdb"%string 4%Z [] 1%Z).
  rewrite predict_stoichiometry_eq, walk_run, min_rmsd_walk. reflexivity.
Defined.

(** ** The alignments issued *)

Lemma aligned_app (w1 w2 : Recorder.world) :
  aligned (w1 ++ w2) = aligned w1 ++ aligned w2.
Proof. apply flat_map_app. Qed.

Lemma aligned_none (w : Recorder.world) :
  Forall (fun c => match c with Align _ _ => False | _ => True end) w ->
  aligned w = [].
Proof.
  induction 1 as [|c w Hc _ IH]; [reflexivity|].
  unfold aligned in *. cbn [flat_map]. rewrite IH.
  destruct c; try reflexivity. contradiction.
Qed.

Lemma aligned_map_align (f g : Z -> string) (idxs : list Z) :
  aligned (map (fun i => Align (f i) (g i)) idxs)
  = map (fun i => (f i, g i)) idxs.
Proof.
  induction idxs as [|i rest IH]; [reflexivity|].
  cbn [map]. unfold aligned in *. cbn [flat_map app]. now rewrite IH.
Qed.

Lemma script_aligned (filepath filename : string) (list_len : Z)
    (temp_file : string) :
  aligned (script filepath filename list_len temp_file)
  = map (fun i => (chain_A_of_copy (i + 1), chain_B_of_copy i))
        (range 0 (list_len - 1)).
Proof.
  unfold script. rewrite !aligned_app, aligned_map_align.
  rewrite (@aligned_none (map _ (range 0 list_len)))
    by (apply Forall_map_cmd; intros; exact I).
  rewrite (@aligned_none (map (fun i => Delete _) (range 0 list_len)))
    by (apply Forall_map_cmd; intros; exact I).
  cbn. now rewrite app_nil_r.
Qed.

(** X15. Every alignment issued superimposes chain A of a copy [i + 1]
    onto chain B of the copy [i] just before it, and both copies have been
    made. *)
Theorem alignments_name_existing_copies :
  forall (loaded : res structure) (filepath filename : string)
         (list_len : Z) (temp_file : string) (mobile target : string),
    let log := snd (rmsd_list_from_dimer Recorder.pymol
                      (Recorder.md_load loaded)
                      filepath filename list_len temp_file []) in
    In (mobile, target) (aligned log) ->
    exists i,
      mobile = chain_A_of_copy (i + 1) /\
      target = chain_B_of_copy i /\
      In (copy_name i) (Recorder.copies log) /\
      In (copy_name (i + 1)) (Recorder.copies log).
Proof.
  intros loaded fp fn n tmp mobile target log. subst log.
  rewrite recorder_run. cbn [snd].
  rewrite script_aligned, script_copies. intros Hin.
  apply in_map_iff in Hin. destruct Hin as (i & Hpair & Hi).
  injection Hpair as <- <-.
  pose proof (range_Forall 0 (n - 1)) as Hall.
  rewrite Forall_forall in Hall. apply Hall in Hi.
  exists i. repeat split; apply in_map, range_In; lia.
Qed.

Lemma alignments_name_existing_copies_witness :
  exists i,
    "/c1//A"%string = chain_A_of_copy (i + 1) /\
    "/c0//B"%string = chain_B_of_copy i /\
    In (copy_name i) (Recorder.copies four_copies_log) /\
    In (copy_name (i + 1)) (Recorder.copies four_copies_log).
Proof.
  apply (@alignments_name_existing_copies
           (Ok walk_structure) "./" "dimer.pdb" 4%Z default_temp_file
           "/c1//A" "/c0//B").
  rewrite recorder_run. cbn [snd]. left. reflexivity.
Defined.

(** ** [draw_rmsd_curve] *)

Section PlotFacts.
Variable world : Type.
Variable pymol : pymol_cmd -> M world unit.
Variable md_load : string -> M world structure.
Variable plt : plt_cmd -> M world unit.


(** When computing the list raises, [draw_rmsd_curve] raises the
    same exception and no plotting call is made. *)
Theorem draw_rmsd_curve_raises :
  forall (filepath filename : string) (max_expected_stoichiometry : Z)
         (w w1 : world) (e : exn),
    rmsd_list_from_dimer pymol md_load filepath filename
                         max_expected_stoichiometry default_temp_file w
      = (Raise e, w1) ->
    draw_rmsd_curve pymol md_load plt filepath filename
                    max_expected_stoichiometry w
    = (Raise e, w1).
Proof.
  intros fp fn mes w w1 e Hrun.
  unfold draw_rmsd_curve. unfold Eff.bind at 1. now rewrite Hrun.
Qed.
End PlotFacts.

